(** * Node-MPV: the IPC correlation layer and the load orchestration

    A shallow embedding of [src/lib/ipcInterface/ipcInterface.ts], of
    [src/lib/error.ts], of [src/lib/util.ts] and of the constructor and the
    [load] method of the [mpv] class, followed by the properties of the
    specification that concern them and by further properties of the code.

    JavaScript values are modelled by the JSON values the protocol carries;
    [undefined] is the [None] of an [option].  The table of pending requests
    is a finite map from request identifiers to request objects. *)

From Stdlib Require Import ZArith List String Ascii Bool Lia.
From stdpp Require Import base option list gmap strings pretty.

Import ListNotations.
Local Open Scope string_scope.
Local Open Scope list_scope.
Set Warnings "-register-all".

(* ===================================================================== *)
(** ** JavaScript values *)
(* ===================================================================== *)

Module JS.

(** The values [JSON.parse] produces.  Numbers are the integers (request
    identifiers, error codes, playlist positions); an object keeps its
    members in the order of the text. *)
Inductive JSON : Type :=
| JNull
| JBool (b : bool)
| JNumber (z : Z)
| JString (s : string)
| JArray (elements : list JSON)
| JObject (members : list (string * JSON)).

(** A JavaScript value that may be [undefined]. *)
Definition JSValue : Type := option JSON.

(** [undefined], [null] or a value: the three states of an optional
    argument. *)
Inductive Optional (A : Type) : Type :=
| undefined
| null
| value (a : A).
Arguments undefined {A}.
Arguments null {A}.
Arguments value {A} a.

(** What a statement can do besides changing the state. *)
Inductive Exception (E : Type) : Type :=
| SyntaxError            (* JSON.parse on a text that is not JSON *)
| TypeError              (* member access on null or undefined *)
| ReferenceError         (* an identifier that is not declared *)
| Thrown (e : E).        (* [throw e] with an error object *)
Arguments SyntaxError {E}.
Arguments TypeError {E}.
Arguments ReferenceError {E}.
Arguments Thrown {E} e.

Inductive Completion (E : Type) : Type :=
| Normal
| Throw (x : Exception E).
Arguments Normal {E}.
Arguments Throw {E} x.

(** [o.k] for an object made by [JSON.parse]: a later member of the same
    name overrides an earlier one.  Arrays, strings, numbers and booleans
    have no member of the names this program reads ([request_id], [error],
    [data], [event]); [null.k] throws and is handled by the callers. *)
Fixpoint lookup_member (k : string) (members : list (string * JSON)) : JSValue :=
  match members with
  | [] => None
  | (k', v) :: rest =>
      match lookup_member k rest with
      | Some v' => Some v'
      | None => if String.eqb k k' then Some v else None
      end
  end.

Definition prop (v : JSON) (k : string) : JSValue :=
  match v with
  | JObject members => lookup_member k members
  | _ => None
  end.

(** ToBoolean. *)
Definition truthy (v : JSValue) : bool :=
  match v with
  | None => false
  | Some JNull => false
  | Some (JBool b) => b
  | Some (JNumber z) => negb (Z.eqb z 0)
  | Some (JString s) => negb (String.eqb s "")
  | Some (JArray _) => true
  | Some (JObject _) => true
  end.

(** [v === n] for a number literal [n]. *)
Definition strict_eq_number (v : JSValue) (n : Z) : bool :=
  match v with
  | Some (JNumber z) => Z.eqb z n
  | _ => false
  end.

(** [v === s] for a string literal [s]. *)
Definition strict_eq_string (v : JSValue) (s : string) : bool :=
  match v with
  | Some (JString s') => String.eqb s' s
  | _ => false
  end.

Fixpoint join (sep : string) (l : list string) : string :=
  match l with
  | [] => ""
  | [s] => s
  | s :: rest => s ++ sep ++ join sep rest
  end.

(** ToString, as used when a value is a property key. *)
Fixpoint toString (v : JSON) : string :=
  match v with
  | JNull => "null"
  | JBool true => "true"
  | JBool false => "false"
  | JNumber z => pretty z
  | JString s => s
  | JArray elements =>
      join "," (List.map (fun e => match e with
                                   | JNull => ""
                                   | _ => toString e
                                   end) elements)
  | JObject _ => "[object Object]"
  end.

Definition toPropertyKey (v : JSValue) : string :=
  match v with
  | None => "undefined"
  | Some j => toString j
  end.

(** The line terminator of the protocol. *)
Definition LF : string := String "010"%char "".

(** [s.split('\n')]: the pieces between line feeds, the empty ones
    included. *)
Fixpoint split_lines_aux (cur : string) (s : string) : list string :=
  match s with
  | EmptyString => [cur]
  | String c rest =>
      if Ascii.eqb c "010"%char
      then cur :: split_lines_aux "" rest
      else split_lines_aux (cur ++ String c "") rest
  end.

Definition split_lines (s : string) : list string := split_lines_aux "" s.

(** [Array.prototype.forEach] with a callback that may throw: the first
    exception ends the iteration. *)
Fixpoint forEach {S A E : Type} (f : S -> A -> S * Completion E)
         (l : list A) (s : S) : S * Completion E :=
  match l with
  | [] => (s, Normal)
  | x :: rest =>
      match f s x with
      | (s', Normal) => forEach f rest s'
      | (s', Throw e) => (s', Throw e)
      end
  end.

(** [l.includes(s)] on an array of strings. *)
Definition includes (l : list string) (s : string) : bool :=
  existsb (String.eqb s) l.

End JS.

Import JS.

(** The two built-ins of the JavaScript runtime the program calls.
    [JSON_parse] is [None] where [JSON.parse] throws its [SyntaxError]. *)
Class JSONRuntime : Type := {
  JSON_parse : string -> option JSON;
  JSON_stringify : JSON -> string
}.

(* ===================================================================== *)
(** ** lib/error.ts *)
(* ===================================================================== *)

Module ErrorHandler.

Record ErrorObject : Type := {
  errcode : nat;
  verbose : option string;
  method : string;
  arguments : Optional (list JSON);
  errmessage : Optional string;
  options : Optional (list (string * string))
}.

(** The error code table. *)
Definition messageDict : list (nat * string) :=
  [ (0, "Unable to load file or stream");
    (1, "Invalid argument");
    (2, "Binary not found");
    (3, "ipcCommand invalid");
    (4, "Unable to bind IPC socket");
    (5, "Timeout");
    (6, "MPV is already running");
    (7, "Could not send IPC message");
    (8, "MPV is not running") ].

Fixpoint messageDict_get (dict : list (nat * string)) (errorCode : nat) : option string :=
  match dict with
  | [] => None
  | (c, text) :: rest => if Nat.eqb c errorCode then Some text else messageDict_get rest errorCode
  end.

(** [errorMessage(errorCode, method, args?, errorMessage?, options?)]. *)
Definition errorMessage (errorCode : nat) (method : string)
           (args : Optional (list JSON)) (errorMessage : Optional string)
           (options : Optional (list (string * string))) : ErrorObject :=
  {| errcode := errorCode;
     verbose := messageDict_get messageDict errorCode;
     method := method;
     arguments := args;
     errmessage := errorMessage;
     options := options |}.

End ErrorHandler.

Import ErrorHandler.

(* ===================================================================== *)
(** ** String built-ins used by [lib/util.ts] *)
(* ===================================================================== *)

(** The regular expressions of [lib/util.ts] and the string methods that
    take them.  A [string] stands for a JavaScript string whose code units
    are all below 256.  Matching is the backtracking of the language
    standard: a matcher takes the continuation that matches the rest of the
    pattern, a greedy star tries one more repetition before it tries the
    continuation, and a repetition that consumes nothing is refused. *)
Module RegExp.

Inductive Regex : Type :=
| Empty
| Chr (c : ascii)
| Dot                        (* .  *)
| Digit                      (* \d *)
| WordChar                   (* \w *)
| WhiteSpace                 (* \s *)
| NoneOf (cs : string)       (* [^...] *)
| Seq (r1 r2 : Regex)
| Star (r : Regex)           (* r* *)
| Group (r : Regex).         (* (r) *)

(** [r+] *)
Definition Plus (r : Regex) : Regex := Seq r (Star r).

(** The characters of [s] one after the other. *)
Fixpoint Literal (s : string) : Regex :=
  match s with
  | EmptyString => Empty
  | String c rest => Seq (Chr c) (Literal rest)
  end.

Definition is_line_terminator (c : ascii) : bool :=
  let n := nat_of_ascii c in Nat.eqb n 10 || Nat.eqb n 13.

Definition is_digit (c : ascii) : bool :=
  let n := nat_of_ascii c in Nat.leb 48 n && Nat.leb n 57.

Definition is_word_char (c : ascii) : bool :=
  let n := nat_of_ascii c in
  (Nat.leb 48 n && Nat.leb n 57) || (Nat.leb 65 n && Nat.leb n 90)
  || (Nat.leb 97 n && Nat.leb n 122) || Nat.eqb n 95.

(** White space and line terminators: tab, line feed, vertical tab, form
    feed, carriage return, space, no-break space. *)
Definition is_white_space (c : ascii) : bool :=
  let n := nat_of_ascii c in
  (Nat.leb 9 n && Nat.leb n 13) || Nat.eqb n 32 || Nat.eqb n 160.

Fixpoint occurs (c : ascii) (cs : string) : bool :=
  match cs with
  | EmptyString => false
  | String c' rest => Ascii.eqb c c' || occurs c rest
  end.

Fixpoint take (n : nat) (s : string) : string :=
  match n, s with
  | S n', String c rest => String c (take n' rest)
  | _, _ => EmptyString
  end.

(** The part of [s] a match has consumed when [rest] is left. *)
Definition consumed (s rest : string) : string :=
  take (String.length s - String.length rest) s.

(** A continuation: the input left and the captures so far. *)
Definition Continuation (A : Type) : Type := string -> list string -> option A.

Definition one {A : Type} (p : ascii -> bool) (k : Continuation A) : Continuation A :=
  fun s captures =>
    match s with
    | String c rest => if p c then k rest captures else None
    | EmptyString => None
    end.

Fixpoint star {A : Type} (m : Continuation A -> Continuation A) (k : Continuation A)
         (fuel : nat) (s : string) (captures : list string) : option A :=
  match fuel with
  | O => k s captures
  | S fuel' =>
      match m (fun rest captures' =>
                 if Nat.ltb (String.length rest) (String.length s)
                 then star m k fuel' rest captures'
                 else None) s captures with
      | Some a => Some a
      | None => k s captures
      end
  end.

Fixpoint run {A : Type} (r : Regex) (k : Continuation A) {struct r} : Continuation A :=
  match r with
  | Empty => k
  | Chr c => one (Ascii.eqb c) k
  | Dot => one (fun c => negb (is_line_terminator c)) k
  | Digit => one is_digit k
  | WordChar => one is_word_char k
  | WhiteSpace => one is_white_space k
  | NoneOf cs => one (fun c => negb (occurs c cs)) k
  | Seq r1 r2 => run r1 (run r2 k)
  | Star r1 => fun s captures => star (run r1) k (String.length s) s captures
  | Group r1 =>
      fun s captures =>
        run r1 (fun rest captures' => k rest (captures' ++ [consumed s rest])) s captures
  end.

(** A match that starts at the first character of [s]: the captures and
    what is left. *)
Definition match_here (r : Regex) (s : string) : option (list string * string) :=
  run r (fun rest captures => Some (captures, rest)) s [].

Record MatchResult : Type := {
  before : string;          (* the input up to index *)
  matched : string;         (* [0] *)
  groups : list string;     (* [1], [2], ... *)
  after : string
}.

(** [r.exec(s)] without flags: the first position a match starts at. *)
Fixpoint exec_from (r : Regex) (prefix : string) (s : string) : option MatchResult :=
  match match_here r s with
  | Some (captures, rest) =>
      Some {| before := prefix; matched := consumed s rest;
              groups := captures; after := rest |}
  | None =>
      match s with
      | String c rest => exec_from r (prefix ++ String c "") rest
      | EmptyString => None
      end
  end.

Definition exec (r : Regex) (s : string) : option MatchResult := exec_from r "" s.

(** [s.match(r)] with the flag g: the text of every match, each search
    starting where the last match ended; [[]] stands for [null]. *)
Fixpoint match_all_from (r : Regex) (fuel : nat) (s : string) : list string :=
  match fuel with
  | O => []
  | S fuel' =>
      match exec r s with
      | None => []
      | Some m =>
          matched m ::
          match matched m, after m with
          | EmptyString, String _ rest => match_all_from r fuel' rest
          | EmptyString, EmptyString => []
          | String _ _, rest => match_all_from r fuel' rest
          end
      end
  end.

Definition match_all (r : Regex) (s : string) : list string :=
  match_all_from r (S (String.length s)) s.

(** [s.split(r)]: the loop of the standard, with [piece] the text between
    the end of the last separator and the position tried. *)
Fixpoint split_from (r : Regex) (fuel : nat) (piece : string) (s : string) : list string :=
  match fuel with
  | O => [(piece ++ s)%string]
  | S fuel' =>
      match s with
      | EmptyString => [piece]
      | String c rest =>
          match match_here r s with
          | None => split_from r fuel' (piece ++ String c "") rest
          | Some (captures, remaining) =>
              if Nat.eqb (String.length remaining) (String.length s) && String.eqb piece ""
              then split_from r fuel' (piece ++ String c "") rest
              else piece :: captures ++ split_from r fuel' "" remaining
          end
      end
  end.

Definition split (r : Regex) (s : string) : list string :=
  match s with
  | EmptyString =>
      match match_here r s with
      | Some _ => []
      | None => [""]
      end
  | String _ _ => split_from r (2 * String.length s + 1) "" s
  end.

(** [s.split(c)] for a separator of one character. *)
Fixpoint split_on_from (sep : ascii) (piece : string) (s : string) : list string :=
  match s with
  | EmptyString => [piece]
  | String c rest =>
      if Ascii.eqb c sep
      then piece :: split_on_from sep "" rest
      else split_on_from sep (piece ++ String c "") rest
  end.

Definition split_on (sep : ascii) (s : string) : list string := split_on_from sep "" s.

Fixpoint trimStart (s : string) : string :=
  match s with
  | String c rest => if is_white_space c then trimStart rest else s
  | EmptyString => s
  end.

Fixpoint trimEnd (s : string) : string :=
  match s with
  | EmptyString => EmptyString
  | String c rest =>
      match trimEnd rest with
      | EmptyString => if is_white_space c then EmptyString else String c EmptyString
      | kept => String c kept
      end
  end.

Definition trim (s : string) : string := trimEnd (trimStart s).

Definition hex_value (c : ascii) : option Z :=
  let n := nat_of_ascii c in
  if Nat.leb 48 n && Nat.leb n 57 then Some (Z.of_nat n - 48)%Z
  else if Nat.leb 97 n && Nat.leb n 102 then Some (Z.of_nat n - 87)%Z
  else if Nat.leb 65 n && Nat.leb n 70 then Some (Z.of_nat n - 55)%Z
  else None.

Definition digit_value (radix : Z) (c : ascii) : option Z :=
  match hex_value c with
  | Some d => if Z.ltb d radix then Some d else None
  | None => None
  end.

(** The value of the longest prefix of digits; [None] when it is empty. *)
Fixpoint digits (radix : Z) (acc : option Z) (s : string) : option Z :=
  match s with
  | EmptyString => acc
  | String c rest =>
      match digit_value radix c with
      | Some d =>
          digits radix (Some (radix * match acc with Some a => a | None => 0 end + d)%Z) rest
      | None => acc
      end
  end.

(** [parseInt(s)] without a radix; [None] is NaN.  The value is the exact
    integer (the program only compares it with 17). *)
Definition parseInt (s : string) : option Z :=
  let s := trimStart s in
  let '(negative, s) := match s with
                        | String c rest =>
                            if Ascii.eqb c "-" then (true, rest)
                            else if Ascii.eqb c "+" then (false, rest)
                            else (false, s)
                        | EmptyString => (false, s)
                        end in
  let '(radix, s) := match s with
                     | String c (String x rest) =>
                         if Ascii.eqb c "0" && (Ascii.eqb x "x" || Ascii.eqb x "X")
                         then (16%Z, rest)
                         else (10%Z, s)
                     | _ => (10%Z, s)
                     end in
  match digits radix None s with
  | Some n => Some (if negative then (- n)%Z else n)
  | None => None
  end.

(** *** Vocabulary for statements about the matchers *)

(** Every character of [s] satisfies [p]. *)
Fixpoint all_chars (p : ascii -> bool) (s : string) : bool :=
  match s with
  | EmptyString => true
  | String c rest => p c && all_chars p rest
  end.

(** [s] is not empty and its first character satisfies [p]. *)
Definition starts_with (p : ascii -> bool) (s : string) : bool :=
  match s with
  | EmptyString => false
  | String c _ => p c
  end.

(** What a greedy star over one class of characters does on a run [v] of
    such characters followed by [rest]: the continuation is tried after the
    whole run first, then after one character less, and so on. *)
Fixpoint longest_first {A : Type} (k : Continuation A) (v rest : string)
         (captures : list string) : option A :=
  match v with
  | EmptyString => k rest captures
  | String c v' =>
      match longest_first k v' rest captures with
      | Some a => Some a
      | None => k (v ++ rest)%string captures
      end
  end.

(** [text] occurs in [s]. *)
Fixpoint contains (text s : string) : bool :=
  String.prefix text s ||
  match s with
  | EmptyString => false
  | String _ rest => contains text rest
  end.

(** No match of [r] starts at a position of [pre] in the text
    [pre ++ tail]. *)
Fixpoint unmatched_before (r : Regex) (pre tail : string) : bool :=
  match pre with
  | EmptyString => true
  | String c pre' =>
      match match_here r (pre ++ tail) with
      | None => unmatched_before r pre' tail
      | Some _ => false
      end
  end.

(** The number a string of decimal digits writes. *)
Definition decimal (s : string) : Z :=
  fold_left (fun n c => (10 * n + (Z.of_nat (nat_of_ascii c) - 48))%Z)
            (list_ascii_of_string s) 0%Z.

End RegExp.

(* ===================================================================== *)
(** ** lib/util.ts *)
(* ===================================================================== *)

Module Util.

Import RegExp.

(** The double quote. *)
Definition DQ : string := String "034"%char "".

(** ToBoolean of an optional value. *)
Definition truthy_string (s : Optional string) : bool :=
  match s with
  | value s => negb (String.eqb s "")
  | undefined | null => false
  end.

Definition truthy_bool (b : Optional bool) : bool :=
  match b with
  | value b => b
  | undefined | null => false
  end.

(** *** findIPCCommand *)

Definition ipc_commands : list string := ["--input-ipc-server"; "--input-unix-socket"].

Definition ipc_command_options : list (string * string) :=
  [ ("--input-unix-socket", "mpv 0.16.0 and below");
    ("--input-ipc-server", "mpv 0.17.0 and above") ].

(** [/UNKNOWN/] *)
Definition unknown_regex : Regex := Literal "UNKNOWN".

(** [/(mpv) \d+.\d+.\d+/] *)
Definition version_regex : Regex :=
  Seq (Group (Literal "mpv"))
      (Seq (Chr " ")
           (Seq (Plus Digit) (Seq Dot (Seq (Plus Digit) (Seq Dot (Plus Digit)))))).

(** How an [async] function of this module ends; [R] is what the child
    process or the file system rejects with. *)
Inductive Outcome (R A : Type) : Type :=
| Resolved (a : A)
| RejectedWith (e : ErrorObject)        (* an error object of [ErrorHandler] *)
| Rethrown (reason : R)
| ThrewTypeError.
Arguments Resolved {R A} a.
Arguments RejectedWith {R A} e.
Arguments Rethrown {R A} reason.
Arguments ThrewTypeError {R A}.

(** The middle number of the version: [match.split(' ')[1].split('.')[1]]
    through [parseInt]; [None] at the outer level is the member access on
    [undefined]. *)
Definition versionNumber (matched : string) : option (option Z) :=
  match nth_error (split_on " " matched) 1 with
  | None => None
  | Some numbers =>
      Some (match nth_error (split_on "." numbers) 1 with
            | None => parseInt "undefined"
            | Some middle => parseInt middle
            end)
  end.

(** [options.binary || 'mpv'] *)
Definition binary_or_mpv (binary : Optional string) : string :=
  match binary with
  | value b => if String.eqb b "" then "mpv" else b
  | undefined | null => "mpv"
  end.

(** The branch of [findIPCCommand] that asks the binary for its version:
    [execa] is the outcome of running a binary with [--version] (its
    standard output, or what it rejects with).  The result comes with the
    binaries that were run. *)
Definition findIPCCommand_version {R : Type} (binary : Optional string)
           (execa : string -> R + string) : list string * Outcome R string :=
  ([binary_or_mpv binary],
   match execa (binary_or_mpv binary) with
   | inl reason => Rethrown reason
   | inr stdout =>
       match exec unknown_regex stdout with
       | None =>
           (* Version Number found *)
           match exec version_regex stdout with
           | Some regex_match =>
               match versionNumber (matched regex_match) with
               | None => ThrewTypeError
               | Some (Some n) =>
                   if Z.leb 17 n then Resolved "--input-ipc-server"
                   else Resolved "--input-unix-socket"
               | Some None => Resolved "--input-unix-socket"
               end
           | None => Resolved "--input-ipc-server"
           end
       | Some _ => Resolved "--input-ipc-server"
       end
   end).

(** [findIPCCommand(options)]: [ipc_command] and [binary] are the two
    members of [options] it reads. *)
Definition findIPCCommand {R : Type} (ipc_command binary : Optional string)
           (execa : string -> R + string) : list string * Outcome R string :=
  match ipc_command with
  | value command =>
      if String.eqb command "" then findIPCCommand_version binary execa
      else if negb (includes ipc_commands command) then
        ([], RejectedWith
               (errorMessage 1 "start()" (value [JString command])
                  (value (DQ ++ command ++ DQ ++ " is not a valid ipc command")%string)
                  (value ipc_command_options)))
      else ([], Resolved command)
  | undefined | null => findIPCCommand_version binary execa
  end.

(** *** mergeDefaultOptions *)

(** The options of the module, with the members of the interface
    [NodeMPVOptions]; a member may hold [undefined] or [null]. *)
Record NodeMPVOptions : Type := {
  opt_debug : Optional bool;
  opt_verbose : Optional bool;
  opt_socket : Optional string;
  opt_audio_only : Optional bool;
  opt_auto_restart : Optional bool;
  opt_time_update : Optional Z;
  opt_binary : Optional string
}.

(** The options as the user passes them: a member is [None] when the
    object has no such key. *)
Record UserOptions : Type := {
  user_debug : option (Optional bool);
  user_verbose : option (Optional bool);
  user_socket : option (Optional string);
  user_audio_only : option (Optional bool);
  user_auto_restart : option (Optional bool);
  user_time_update : option (Optional Z);
  user_binary : option (Optional string)
}.

Definition no_options : UserOptions :=
  {| user_debug := None; user_verbose := None; user_socket := None;
     user_audio_only := None; user_auto_restart := None; user_time_update := None;
     user_binary := None |}.

(** [defaultOptions]; [platform] is [process.platform]. *)
Definition defaultOptions (platform : string) : NodeMPVOptions :=
  {| opt_debug := value false;
     opt_verbose := value false;
     opt_socket := value (if String.eqb platform "win32"
                          then String "092" (String "092" (String "."
                                 (String "092" ("pipe" ++ String "092" "mpvserver"))))
                          else "/tmp/node-mpv.sock");
     opt_audio_only := value false;
     opt_auto_restart := value true;
     opt_time_update := value 1%Z;
     opt_binary := null |}.

(** One member of [{...defaultOptions, ...userInputOptions}]. *)
Definition spread {A : Type} (default : Optional A) (user : option (Optional A)) : Optional A :=
  match user with
  | Some v => v
  | None => default
  end.

Definition mergeDefaultOptions (platform : string) (userInputOptions : option UserOptions)
  : NodeMPVOptions :=
  let d := defaultOptions platform in
  let u := match userInputOptions with Some u => u | None => no_options end in
  {| opt_debug := spread (opt_debug d) (user_debug u);
     opt_verbose := spread (opt_verbose d) (user_verbose u);
     opt_socket := spread (opt_socket d) (user_socket u);
     opt_audio_only := spread (opt_audio_only d) (user_audio_only u);
     opt_auto_restart := spread (opt_auto_restart d) (user_auto_restart u);
     opt_time_update := spread (opt_time_update d) (user_time_update u);
     opt_binary := spread (opt_binary d) (user_binary u) |}.


(** *** observedProperties *)

Definition basicObserved : list (string * JSON) :=
  [ ("mute", JBool false);
    ("pause", JBool false);
    ("duration", JNull);
    ("volume", JNumber 100);
    ("filename", JNull);
    ("path", JNull);
    ("media-title", JNull);
    ("playlist-pos", JNull);
    ("playlist-count", JNull);
    ("loop", JString "no") ].

Definition observedVideo : list (string * JSON) :=
  [ ("fullscreen", JBool false);
    ("sub-visibility", JBool false) ].

Definition observedProperties (audioOnlyOption : bool) : list (string * JSON) :=
  if negb audioOnlyOption then basicObserved ++ observedVideo else basicObserved.

(** *** mpvArguments *)

(** [[...new Set(l)]]: the elements of [l] in the order of their first
    occurrence. *)
Fixpoint unique_from (seen : list string) (l : list string) : list string :=
  match l with
  | [] => []
  | x :: rest =>
      if existsb (String.eqb x) seen
      then unique_from seen rest
      else x :: unique_from (x :: seen) rest
  end.

Definition unique (l : list string) : list string := unique_from [] l.

(** [mpvArguments(options, userInputArguments)]: [audio_only] is the
    truth value of [options.audio_only]; [None] stands for an absent
    (undefined or null) list. *)
Definition mpvArguments (audio_only : bool) (userInputArguments : option (list string))
  : list string :=
  let defaultArgs := ["--idle"; "--really-quiet"; "--msg-level=ipc=v"] in
  let defaultArgs := if audio_only
                     then defaultArgs ++ ["--no-video"; "--no-audio-display"]
                     else defaultArgs in
  match userInputArguments with
  | Some l => unique (defaultArgs ++ l)
  | None => defaultArgs
  end.

(** *** formatOptions *)

(** [/=(.+)/] *)
Definition option_regex : Regex := Seq (Chr "=") (Group (Plus Dot)).

(** [optionJSON[key] = v]: an own member is defined or overwritten, except
    under the key [__proto__], where a string or [undefined] is dropped by
    the setter of the prototype.  [None] as a member is [undefined]. *)
Definition set_member (key : string) (v : option string)
           (o : gmap string (option string)) : gmap string (option string) :=
  if String.eqb key "__proto__" then o else <[key := v]> o.

(** The body of the loop of [formatOptions] for the element [entry]. *)
Definition formatOptions_step (optionJSON : gmap string (option string)) (entry : string)
  : gmap string (option string) :=
  (* Splits only on the first = character *)
  let splitted := split option_regex entry in
  match nth_error splitted 0 with
  | Some key => set_member key (nth_error splitted 1) optionJSON
  | None => set_member "undefined" (nth_error splitted 1) optionJSON
  end.

(** [formatOptions(options)]. *)
Definition formatOptions (options : list string) : gmap string (option string) :=
  fold_left formatOptions_step options ∅.

(** *** getCaller *)

(** [/at\s\w*[^getCaller]\.\w*\s/g] *)
Definition caller_regex : Regex :=
  Seq (Literal "at")
      (Seq WhiteSpace
           (Seq (Star WordChar)
                (Seq (NoneOf "getCaller")
                     (Seq (Chr ".") (Seq (Star WordChar) WhiteSpace))))).

(** [getCaller()]: [stack] is the text of [new Error().stack]; [None] is
    the TypeError of a member access on [null] or [undefined]. *)
Definition getCaller (stack : string) : option string :=
  match last (match_all caller_regex stack) with
  | None => None
  | Some frame =>
      match nth_error (split_on "." frame) 1 with
      | None => None
      | Some name => Some (trim name ++ "()")%string
      end
  end.

End Util.

(* ===================================================================== *)
(** ** lib/ipcInterface/ipcInterface.ts *)
(* ===================================================================== *)

Module IpcInterface.

Record ipcOptions : Type := {
  debug : bool;
  socket_path : string;       (* options.socket *)
  verbose_output : bool       (* options.verbose *)
}.

(** The [net.Socket] as far as the class uses it: whether it has been
    destroyed, how often [destroy] was called, and what was written. *)
Record Socket : Type := {
  destroyed : bool;
  destroy_calls : nat;
  written : list string
}.

Definition Socket_new : Socket :=
  {| destroyed := false; destroy_calls := 0; written := [] |}.

Definition Socket_destroy (s : Socket) : Socket :=
  {| destroyed := true;
     destroy_calls := S (destroy_calls s);
     written := written s |}.

Definition Socket_write (s : Socket) (data : string) : Socket :=
  {| destroyed := destroyed s;
     destroy_calls := destroy_calls s;
     written := written s ++ [data] |}.

(** Lines of [console.log]. *)
Inductive ConsoleLine : Type :=
| LogSocketClosed
| LogError (error : JSON)
| LogNotRunning (command : string) (socket : string).

(** Modelled from the spec: the class [ipcRequest] of
    [lib/ipcInterface/ipcRequest], which is imported here and is not among
    the sources.  A PendingRequest keeps the original command arguments and
    a completion handle; [resolve] completes the outcome with the payload,
    [reject] fails it with an error carrying the reported error string and
    the original command arguments.  The handle is the identity of the
    object [new] allocated. *)
Record ipcRequest : Type := {
  req_handle : nat;
  req_args : list JSON
}.

Inductive Settlement : Type :=
| Resolved (data : JSValue)
| Failed (error : JSValue) (args : list JSON).

(** The instance: its members, the ['message'] events it has emitted, the
    console, and the outcomes completed so far, oldest first. *)
Record ipcInterface : Type := {
  options : ipcOptions;
  socket : Socket;
  ipcRequests : gmap string ipcRequest;
  emitted : list JSON;
  console : list ConsoleLine;
  outcomes : list (nat * Settlement);
  allocated : nat
}.

Definition constructor (options : ipcOptions) : ipcInterface :=
  {| options := options;
     socket := Socket_new;
     ipcRequests := ∅;
     emitted := [];
     console := [];
     outcomes := [];
     allocated := 0 |}.

Definition set_socket (s : Socket) (this : ipcInterface) : ipcInterface :=
  {| options := options this; socket := s; ipcRequests := ipcRequests this;
     emitted := emitted this; console := console this;
     outcomes := outcomes this; allocated := allocated this |}.

Definition set_ipcRequests (t : gmap string ipcRequest) (this : ipcInterface) : ipcInterface :=
  {| options := options this; socket := socket this; ipcRequests := t;
     emitted := emitted this; console := console this;
     outcomes := outcomes this; allocated := allocated this |}.

Definition emit_message (m : JSON) (this : ipcInterface) : ipcInterface :=
  {| options := options this; socket := socket this; ipcRequests := ipcRequests this;
     emitted := emitted this ++ [m]; console := console this;
     outcomes := outcomes this; allocated := allocated this |}.

Definition console_log (l : ConsoleLine) (this : ipcInterface) : ipcInterface :=
  {| options := options this; socket := socket this; ipcRequests := ipcRequests this;
     emitted := emitted this; console := console this ++ [l];
     outcomes := outcomes this; allocated := allocated this |}.

Definition settle (h : nat) (o : Settlement) (this : ipcInterface) : ipcInterface :=
  {| options := options this; socket := socket this; ipcRequests := ipcRequests this;
     emitted := emitted this; console := console this;
     outcomes := outcomes this ++ [(h, o)]; allocated := allocated this |}.

(** Modelled from the spec: [new ipcRequest(args)]. *)
Definition ipcRequest_new (args : list JSON) (this : ipcInterface) : ipcRequest * ipcInterface :=
  ({| req_handle := allocated this; req_args := args |},
   {| options := options this; socket := socket this; ipcRequests := ipcRequests this;
      emitted := emitted this; console := console this;
      outcomes := outcomes this; allocated := S (allocated this) |}).

(** Modelled from the spec: [ipcRequest.resolve(data)]. *)
Definition ipcRequest_resolve (r : ipcRequest) (data : JSValue) (this : ipcInterface) : ipcInterface :=
  settle (req_handle r) (Resolved data) this.

(** Modelled from the spec: [ipcRequest.reject(error)]. *)
Definition ipcRequest_reject (r : ipcRequest) (error : JSValue) (this : ipcInterface) : ipcInterface :=
  settle (req_handle r) (Failed error (req_args r)) this.

(** Event [close]. *)
Definition closeHandler (this : ipcInterface) : ipcInterface :=
  let this := if debug (options this) then console_log LogSocketClosed this else this in
  set_socket (Socket_destroy (socket this)) this.

(** Event [error]. *)
Definition errHandler (error : JSON) (this : ipcInterface) : ipcInterface :=
  if debug (options this) then console_log (LogError error) this else this.

Section WithRuntime.
Context {runtime : JSONRuntime}.

(** The callback [dataHandler] passes to [messages.forEach]. *)
Definition dataHandler_message (this : ipcInterface) (message : string)
  : ipcInterface * Completion ErrorObject :=
  if Nat.ltb 0 (String.length message) then
    match JSON_parse message with
    | None => (this, Throw SyntaxError)
    | Some JNull => (this, Throw TypeError)
    | Some JSONmessage =>
        let request_id := prop JSONmessage "request_id" in
        if truthy request_id && negb (strict_eq_number request_id 0) then
          if strict_eq_string (prop JSONmessage "error") "success" then
            match ipcRequests this !! toPropertyKey request_id with
            | None => (this, Throw TypeError)
            | Some request =>
                let this := ipcRequest_resolve request (prop JSONmessage "data") this in
                (set_ipcRequests (delete (toPropertyKey request_id) (ipcRequests this)) this,
                 Normal)
            end
          else
            match ipcRequests this !! toPropertyKey request_id with
            | None => (this, Throw TypeError)
            | Some request =>
                let this := ipcRequest_reject request (prop JSONmessage "error") this in
                (set_ipcRequests (delete (toPropertyKey request_id) (ipcRequests this)) this,
                 Normal)
            end
        else
          (emit_message JSONmessage this, Normal)
    end
  else (this, Normal).

(** Event [data]. *)
Definition dataHandler (data : string) (this : ipcInterface)
  : ipcInterface * Completion ErrorObject :=
  let messages := split_lines data in
  forEach dataHandler_message messages this.

(** What the runtime decides during one call of [send]: the text of
    [new Error().stack] that [getCaller()] searches, the identifier [cuid()]
    returns, and whether the [try] block ([JSON.stringify], [socket.write])
    throws. *)
Record SendEnv : Type := {
  stack : string;
  cuid : string;
  write_throws : bool
}.

(** [send]: an [async] function, so [Throw] is a rejected promise and
    [Normal] a promise fulfilled with [undefined]. *)
Definition send (env : SendEnv) (command : list JSON) (this : ipcInterface)
  : ipcInterface * Completion ErrorObject :=
  if destroyed (socket this) then
    (* the argument [getCaller()] is evaluated first, and may throw *)
    match Util.getCaller (stack env) with
    | Some caller =>
        (this, Throw (Thrown (errorMessage 8 caller undefined undefined undefined)))
    | None => (this, Throw TypeError)
    end
  else
    let request_id := cuid env in
    let messageJson := JObject [("command", JArray command);
                                ("request_id", JString request_id)] in
    let (request, this) := ipcRequest_new (tl command) this in
    let this := set_ipcRequests (<[request_id := request]> (ipcRequests this)) this in
    if write_throws env then
      (* catch: the argument [message] of errorMessage is not declared *)
      (this, Throw ReferenceError)
    else
      let this := set_socket (Socket_write (socket this)
                                (JSON_stringify messageJson ++ LF)) this in
      (set_ipcRequests (delete request_id (ipcRequests this)) this, Normal).

Definition command (env : SendEnv) (command : string) (args : Optional (list JSON))
           (this : ipcInterface) : ipcInterface * Completion ErrorObject :=
  (* empty list if args was not set *)
  let args := match args with
              | value l => l
              | undefined | null => []
              end in
  let command_list := JString command :: args in
  send env command_list this.

Definition setProperty (env : SendEnv) (property : string) (v : JSON)
           (this : ipcInterface) : ipcInterface * Completion ErrorObject :=
  send env [JString "set_property"; JString property; v] this.

Definition addProperty (env : SendEnv) (property : string) (v : Z)
           (this : ipcInterface) : ipcInterface * Completion ErrorObject :=
  send env [JString "add"; JString property; JNumber v] this.

Definition multiplyProperty (env : SendEnv) (property : string) (v : Z)
           (this : ipcInterface) : ipcInterface * Completion ErrorObject :=
  send env [JString "multiply"; JString property; JNumber v] this.

Definition getProperty (env : SendEnv) (property : string)
           (this : ipcInterface) : ipcInterface * Completion ErrorObject :=
  send env [JString "get_property"; JString property] this.

Definition cycleProperty (env : SendEnv) (property : string)
           (this : ipcInterface) : ipcInterface * Completion ErrorObject :=
  send env [JString "cycle"; JString property] this.

End WithRuntime.

(** [freeCommand]: the write is tried, a failure is logged. *)
Definition freeCommand (write_throws : bool) (command : string) (this : ipcInterface) : ipcInterface :=
  if write_throws
  then console_log (LogNotRunning command (socket_path (options this))) this
  else set_socket (Socket_write (socket this) (command ++ LF)) this.

(** [quit]: the listeners are removed and the socket destroyed. *)
Definition quit (this : ipcInterface) : ipcInterface :=
  set_socket (Socket_destroy (socket this)) this.

End IpcInterface.

Import IpcInterface.

(* ===================================================================== *)
(** ** The [load] method of the [mpv] class *)
(* ===================================================================== *)

Module Mpv.







(** The outcome of an awaited promise. *)
Inductive Awaited (A : Type) : Type :=
| Fulfilled (a : A)
| Rejected (reason : Exception ErrorObject).
Arguments Fulfilled {A} a.
Arguments Rejected {A} reason.

(** The waiting phase: the observation socket and the two variables the
    ['data'] listener closes over. *)
Record LoadSession : Type := {
  observeSocket : Socket;
  timeout : nat;
  started : bool
}.

Definition set_started (b : bool) (s : LoadSession) : LoadSession :=
  {| observeSocket := observeSocket s; timeout := timeout s; started := b |}.

Definition set_timeout (n : nat) (s : LoadSession) : LoadSession :=
  {| observeSocket := observeSocket s; timeout := n; started := started s |}.

Definition observeSocket_destroy (s : LoadSession) : LoadSession :=
  {| observeSocket := Socket_destroy (observeSocket s);
     timeout := timeout s; started := started s |}.

(** How the callback of [observeSocket.connect] ends. *)
Inductive ConnectOutcome : Type :=
| AwaitThrew (observeSocket : Socket) (reason : Exception ErrorObject)
| Returned (observeSocket : Socket)
| Listening (session : LoadSession).

(** The callback of [observeSocket.connect].  [this.command] and
    [this.getPlaylistSize] belong to modules that are mixed into the class;
    the outcomes of the two awaited calls are inputs. *)
Definition load_connected (mode : string) (loadfile : Awaited unit)
           (getPlaylistSize : Awaited Z) (observeSocket : Socket) : ConnectOutcome :=
  match loadfile with
  | Rejected reason => AwaitThrew observeSocket reason
  | Fulfilled _ =>
      match getPlaylistSize with
      | Rejected reason => AwaitThrew observeSocket reason
      | Fulfilled playlistSize =>
          if String.eqb mode "append" then
            Returned (Socket_destroy observeSocket)
          else if String.eqb mode "append-play" && Z.ltb 1 playlistSize then
            Returned (Socket_destroy observeSocket)
          else
            Listening {| observeSocket := observeSocket; timeout := 0; started := false |}
      end
  end.

Section WithRuntime.
Context {runtime : JSONRuntime}.

(** The callback the ['data'] listener passes to [messages.forEach]. *)
Definition load_message (caller file : string) (s : LoadSession) (messageStr : string)
  : LoadSession * Completion ErrorObject :=
  (* ignore empty messages *)
  if Nat.ltb 0 (String.length messageStr) then
    match JSON_parse messageStr with
    | None => (s, Throw SyntaxError)
    | Some JNull => (s, Throw TypeError)
    | Some message =>
        if truthy (prop message "event") then
          if strict_eq_string (prop message "event") "start-file" then
            (set_started true s, Normal)
          else if strict_eq_string (prop message "event") "file-loaded" && started s then
            (observeSocket_destroy s, Normal)
          else if strict_eq_string (prop message "event") "end-file" && started s then
            (observeSocket_destroy s,
             Throw (Thrown (errorMessage 0 caller (value [JString file]) undefined undefined)))
          else (s, Normal)
        else (s, Normal)
    end
  else (s, Normal).

(** The ['data'] listener of the observation socket. *)
Definition load_data (caller file : string) (data : string) (s : LoadSession)
  : LoadSession * Completion ErrorObject :=
  (* increase timeout *)
  let s := set_timeout (timeout s + 1) s in
  let messages := split_lines data in
  match forEach (load_message caller file) messages s with
  | (s, Throw e) => (s, Throw e)
  | (s, Normal) =>
      if Nat.ltb 10 (timeout s) then
        (observeSocket_destroy s,
         Throw (Thrown (errorMessage 5 caller (value [JString file]) undefined undefined)))
      else (s, Normal)
  end.

(** The deliveries of a session in order.  A destroyed socket emits no
    further ['data'] event; what the listener threw is collected. *)
Fixpoint load_deliveries (caller file : string) (chunks : list string) (s : LoadSession)
  : LoadSession * list (Exception ErrorObject) :=
  match chunks with
  | [] => (s, [])
  | data :: rest =>
      if destroyed (observeSocket s) then (s, [])
      else
        match load_data caller file data s with
        | (s', Normal) => load_deliveries caller file rest s'
        | (s', Throw e) =>
            let (s'', es) := load_deliveries caller file rest s' in
            (s'', e :: es)
        end
  end.

End WithRuntime.

End Mpv.

Import Mpv.

(* ===================================================================== *)
(** ** A runtime for the texts mpv exchanges *)
(* ===================================================================== *)

(** An executable [JSON.parse] and [JSON.stringify] for the JSON texts of
    the protocol: objects, arrays, strings with the two-character escapes
    and the four-digit escape of an ASCII character, integers that a
    JavaScript number holds exactly, and the three literals; on any other
    text [parse] is [None].  That leaves out texts [JSON.parse] accepts: a
    number with a fraction or an exponent, or an integer beyond 2^53; and
    [stringify] writes every integer in full, as [JSON.stringify] does
    below 10^21.  The general theorems below hold for every runtime; this
    one only evaluates them on concrete chunks within these bounds. *)
Module Runtime.

Definition DQUOTE : ascii := "034"%char.
Definition BACKSLASH : ascii := "092"%char.

Definition is_ws (c : ascii) : bool :=
  let n := nat_of_ascii c in
  Nat.eqb n 32 || Nat.eqb n 9 || Nat.eqb n 10 || Nat.eqb n 13.

Definition is_digit (c : ascii) : bool :=
  let n := nat_of_ascii c in
  Nat.leb 48 n && Nat.leb n 57.

Definition digit_value (c : ascii) : Z := Z.of_nat (nat_of_ascii c) - 48.

Definition hex_value (c : ascii) : option nat :=
  let n := nat_of_ascii c in
  if Nat.leb 48 n && Nat.leb n 57 then Some (n - 48)
  else if Nat.leb 97 n && Nat.leb n 102 then Some (n - 87)
  else if Nat.leb 65 n && Nat.leb n 70 then Some (n - 55)
  else None.

Fixpoint skip_ws (s : string) : string :=
  match s with
  | String c rest => if is_ws c then skip_ws rest else s
  | EmptyString => s
  end.

Fixpoint strip_prefix (p s : string) : option string :=
  match p, s with
  | EmptyString, _ => Some s
  | String a p', String b s' => if Ascii.eqb a b then strip_prefix p' s' else None
  | String _ _, EmptyString => None
  end.

Fixpoint parse_digits (acc : Z) (s : string) : Z * string :=
  match s with
  | String c rest =>
      if is_digit c then parse_digits (10 * acc + digit_value c) rest else (acc, s)
  | EmptyString => (acc, s)
  end.

(** The largest integer a JavaScript number holds exactly. *)
Definition MAX_SAFE_INTEGER : Z := 9007199254740991.

(** An integer literal; a fraction or an exponent is outside the texts
    handled here. *)
Definition parse_number (s : string) : option (JSON * string) :=
  let '(negative, s) := match s with
                        | String "-" rest => (true, rest)
                        | _ => (false, s)
                        end in
  let after (n : Z) (rest : string) : option (JSON * string) :=
    match rest with
    | String "." _ | String "e" _ | String "E" _ => None
    | _ => if Z.leb n MAX_SAFE_INTEGER
           then Some (JNumber (if negative then - n else n), rest)
           else None
    end in
  match s with
  | String "0" rest => after 0%Z rest
  | String c _ =>
      if is_digit c then let (n, rest) := parse_digits 0 s in after n rest else None
  | EmptyString => None
  end.

(** The characters of a string literal after its opening quote. *)
Fixpoint parse_string (acc : string) (s : string) : option (string * string) :=
  match s with
  | EmptyString => None
  | String "034" rest => Some (acc, rest)
  | String "092" (String e rest) =>
      let continue (c : ascii) := parse_string (acc ++ String c "") rest in
      match e with
      | "034"%char => continue "034"%char
      | "092"%char => continue "092"%char
      | "/"%char => continue "/"%char
      | "b"%char => continue "008"%char
      | "f"%char => continue "012"%char
      | "n"%char => continue "010"%char
      | "r"%char => continue "013"%char
      | "t"%char => continue "009"%char
      | "u"%char =>
          match rest with
          | String "0" (String "0" (String h (String l rest'))) =>
              match hex_value h, hex_value l with
              | Some a, Some b =>
                  if Nat.ltb a 8
                  then parse_string (acc ++ String (ascii_of_nat (16 * a + b)) "") rest'
                  else None
              | _, _ => None
              end
          | _ => None
          end
      | _ => None
      end
  | String "092" EmptyString => None
  | String c rest =>
      if Nat.ltb (nat_of_ascii c) 32 then None
      else parse_string (acc ++ String c "") rest
  end.

Fixpoint parse_value (fuel : nat) (s : string) : option (JSON * string) :=
  match fuel with
  | O => None
  | S fuel =>
      let s := skip_ws s in
      match s with
      | String "034" rest =>
          match parse_string "" rest with
          | Some (str, rest) => Some (JString str, rest)
          | None => None
          end
      | String "[" rest =>
          match skip_ws rest with
          | String "]" rest => Some (JArray [], rest)
          | _ =>
              match parse_elements fuel rest with
              | Some (l, rest) => Some (JArray l, rest)
              | None => None
              end
          end
      | String "{" rest =>
          match skip_ws rest with
          | String "}" rest => Some (JObject [], rest)
          | _ =>
              match parse_members fuel rest with
              | Some (l, rest) => Some (JObject l, rest)
              | None => None
              end
          end
      | _ =>
          match strip_prefix "null" s, strip_prefix "true" s, strip_prefix "false" s with
          | Some rest, _, _ => Some (JNull, rest)
          | _, Some rest, _ => Some (JBool true, rest)
          | _, _, Some rest => Some (JBool false, rest)
          | None, None, None => parse_number s
          end
      end
  end
with parse_elements (fuel : nat) (s : string) : option (list JSON * string) :=
  match fuel with
  | O => None
  | S fuel =>
      match parse_value fuel s with
      | Some (v, rest) =>
          match skip_ws rest with
          | String "," rest =>
              match parse_elements fuel rest with
              | Some (l, rest) => Some (v :: l, rest)
              | None => None
              end
          | String "]" rest => Some ([v], rest)
          | _ => None
          end
      | None => None
      end
  end
with parse_members (fuel : nat) (s : string) : option (list (string * JSON) * string) :=
  match fuel with
  | O => None
  | S fuel =>
      match skip_ws s with
      | String "034" rest =>
          match parse_string "" rest with
          | Some (key, rest) =>
              match skip_ws rest with
              | String ":" rest =>
                  match parse_value fuel rest with
                  | Some (v, rest) =>
                      match skip_ws rest with
                      | String "," rest =>
                          match parse_members fuel rest with
                          | Some (l, rest) => Some ((key, v) :: l, rest)
                          | None => None
                          end
                      | String "}" rest => Some ([(key, v)], rest)
                      | _ => None
                      end
                  | None => None
                  end
              | _ => None
              end
          | None => None
          end
      | _ => None
      end
  end.

Definition parse (text : string) : option JSON :=
  match parse_value (2 * String.length text + 2) text with
  | Some (v, rest) =>
      match skip_ws rest with
      | EmptyString => Some v
      | String _ _ => None
      end
  | None => None
  end.

Definition hex_digit (n : nat) : ascii :=
  if Nat.ltb n 10 then ascii_of_nat (48 + n) else ascii_of_nat (87 + n).

Definition escape_char (c : ascii) : string :=
  let n := nat_of_ascii c in
  if Nat.eqb n 34 then String BACKSLASH (String DQUOTE "")
  else if Nat.eqb n 92 then String BACKSLASH (String BACKSLASH "")
  else if Nat.eqb n 8 then String BACKSLASH "b"
  else if Nat.eqb n 12 then String BACKSLASH "f"
  else if Nat.eqb n 10 then String BACKSLASH "n"
  else if Nat.eqb n 13 then String BACKSLASH "r"
  else if Nat.eqb n 9 then String BACKSLASH "t"
  else if Nat.ltb n 32
       then String BACKSLASH
              ("u00" ++ String (hex_digit (n / 16)) (String (hex_digit (n mod 16)) ""))
  else String c "".

Fixpoint escape (s : string) : string :=
  match s with
  | EmptyString => ""
  | String c rest => escape_char c ++ escape rest
  end.

Definition quote (s : string) : string :=
  String DQUOTE (escape s ++ String DQUOTE "").

Fixpoint stringify (v : JSON) : string :=
  match v with
  | JNull => "null"
  | JBool true => "true"
  | JBool false => "false"
  | JNumber z => pretty z
  | JString s => quote s
  | JArray elements => "[" ++ join "," (List.map stringify elements) ++ "]"
  | JObject members =>
      "{" ++ join "," (List.map (fun m => (quote (fst m) ++ ":" ++ stringify (snd m))%string)
                                members)
          ++ "}"
  end.

#[global] Instance node : JSONRuntime :=
  {| JSON_parse := parse; JSON_stringify := stringify |}.

End Runtime.

(* ===================================================================== *)
(** ** Vocabulary for the deliveries of a load session *)
(* ===================================================================== *)

Module Deliveries.

Section WithRuntime.
Context {runtime : JSONRuntime}.

(** The message is not empty and is the event [name]. *)
Definition is_event (name : string) (messageStr : string) : bool :=
  negb (String.eqb messageStr "") &&
  match JSON_parse messageStr with
  | Some message => strict_eq_string (prop message "event") name
  | None => false
  end.

(** The message is empty or parses to a value other than [null]. *)
Definition well_formed (messageStr : string) : bool :=
  match messageStr with
  | EmptyString => true
  | String _ _ =>
      match JSON_parse messageStr with
      | None | Some JNull => false
      | Some _ => true
      end
  end.

(** The message is one of the two events that end the waiting phase. *)
Definition terminal_event (messageStr : string) : bool :=
  is_event "file-loaded" messageStr || is_event "end-file" messageStr.

End WithRuntime.

(** The session [load_connected] starts the waiting phase with. *)
Definition fresh_session (observeSocket : Socket) : LoadSession :=
  {| observeSocket := observeSocket; timeout := 0; started := false |}.

End Deliveries.

Import Deliveries.

(* ===================================================================== *)
(** ** Statements of the specification that the code does not meet *)
(* ===================================================================== *)

Module Claims.

(** A peer-initiated close fails every pending outcome and leaves no
    request registered. *)
Definition close_fails_all_pending (this : ipcInterface) : Prop :=
  let this' := closeHandler this in
  (forall id request,
      ipcRequests this !! id = Some request ->
      exists error args, In (req_handle request, Failed error args) (outcomes this')) /\
  ipcRequests this' = ∅.

(** A bad message, one that is not JSON or answers no registered request,
    is contained: the chunk behaves as the same chunk without it. *)
Definition bad_message_contained `{JSONRuntime} (this : ipcInterface)
           (before : list string) (bad : string) (after : list string) : Prop :=
  forall data,
    split_lines data = before ++ bad :: after ->
    dataHandler data this = forEach dataHandler_message (before ++ after) this.

(** The delivery that takes the poll counter above ten, carrying no
    terminal event, ends the session with the Timeout error and a destroyed
    observation socket. *)
Definition eleventh_delivery_times_out `{JSONRuntime} (caller file : string)
           (s : LoadSession) (data : string) : Prop :=
  10 <= timeout s ->
  forallb (fun m => negb (terminal_event m)) (split_lines data) = true ->
  snd (load_data caller file data s) =
    Throw (Thrown (errorMessage 5 caller (value [JString file]) undefined undefined)) /\
  destroyed (observeSocket (fst (load_data caller file data s))) = true.

End Claims.

(* ===================================================================== *)
(** ** Concrete instances *)
(* ===================================================================== *)

(** Instances, messages, chunks, sessions and players the theorems are
    evaluated on, with [Runtime.node] for the runtime. *)
Module Examples.

Definition ipc_options : ipcOptions :=
  {| debug := false; socket_path := "/tmp/node-mpv.sock"; verbose_output := false |}.

Definition get_volume : list JSON := [JString "get_property"; JString "volume"].

(** The stack inside [getCaller] when a method of the [mpv] class asks for
    a property, and when a timer calls the [ipcInterface] itself. *)
Definition property_stack : string :=
  "Error" ++ LF ++
  "    at getCaller (/node-mpv/lib/util.js:243:23)" ++ LF ++
  "    at ipcInterface.send (/node-mpv/lib/ipcInterface/ipcInterface.js:250:67)" ++ LF ++
  "    at ipcInterface.getProperty (/node-mpv/lib/ipcInterface/ipcInterface.js:177:15)" ++ LF ++
  "    at mpv.getProperty (/node-mpv/lib/mpv/_information.js:60:22)" ++ LF ++
  "    at Object.<anonymous> (/app/index.js:5:5)".

Definition timer_stack : string :=
  "Error" ++ LF ++
  "    at getCaller (/node-mpv/lib/util.js:243:23)" ++ LF ++
  "    at ipcInterface.send (/node-mpv/lib/ipcInterface/ipcInterface.js:250:67)" ++ LF ++
  "    at ipcInterface.getProperty (/node-mpv/lib/ipcInterface/ipcInterface.js:177:15)" ++ LF ++
  "    at Timeout._onTimeout (/app/index.js:7:9)" ++ LF ++
  "    at listOnTimeout (internal/timers.js:554:17)" ++ LF ++
  "    at processTimers (internal/timers.js:497:7)".

(** [send] on a socket whose write succeeds, and one whose [try] block
    throws. *)
Definition volume_env : SendEnv :=
  {| stack := property_stack; cuid := "ck1"; write_throws := false |}.

Definition throwing_env : SendEnv :=
  {| stack := property_stack; cuid := "ck1"; write_throws := true |}.

(** [send] called from the timer. *)
Definition timer_env : SendEnv :=
  {| stack := timer_stack; cuid := "ck2"; write_throws := false |}.

(** A connected instance with nothing pending. *)
Definition connected : ipcInterface := constructor ipc_options.

(** An instance with one request registered under the identifier ck1:
    [send] was called on the open socket and its [try] block threw. *)
Definition one_pending : ipcInterface :=
  fst (send throwing_env get_volume connected).

Definition volume_request : ipcRequest :=
  {| req_handle := 0; req_args := [JString "volume"] |}.

(** A text written with ['] where it has the double quote. *)
Fixpoint text (s : string) : string :=
  match s with
  | EmptyString => EmptyString
  | String c rest => String (if Ascii.eqb c "'" then "034"%char else c) (text rest)
  end.

Definition success_response : string :=
  text "{'request_id':'ck1','error':'success','data':50}".

Definition error_response : string :=
  text "{'request_id':'ck1','error':'property unavailable'}".

(** A chunk that carries the given messages, each with its line feed. *)
Fixpoint chunk (messages : list string) : string :=
  match messages with
  | [] => ""
  | m :: rest => m ++ LF ++ chunk rest
  end.


Definition pause_event : string := text "{'event':'pause'}".
Definition start_file : string := text "{'event':'start-file'}".
Definition file_loaded : string := text "{'event':'file-loaded'}".
Definition end_file : string := text "{'event':'end-file'}".

(** Not JSON: a message cut off by the end of a chunk. *)
Definition truncated : string := text "{'event':'pau".

(** A response to a request that is not registered. *)
Definition stray_response : string :=
  text "{'request_id':'zz9','error':'success'}".

(** A waiting session that has seen ten deliveries, and one that has seen
    the start of the file among them. *)
Definition after_ten : LoadSession :=
  {| observeSocket := Socket_new; timeout := 10; started := false |}.

Definition started_after_ten : LoadSession :=
  {| observeSocket := Socket_new; timeout := 10; started := true |}.


End Examples.

(* ===================================================================== *)
(** ** Vocabulary for the chunks of the main connection *)
(* ===================================================================== *)

Module Framing.

Section WithRuntime.
Context {runtime : JSONRuntime}.

(** The line is empty, or parses to a value other than [null] whose
    [request_id] is missing or falsy: [dataHandler] takes it for an event. *)
Definition is_notification (message : string) : bool :=
  match message with
  | EmptyString => true
  | String _ _ =>
      match JSON_parse message with
      | None | Some JNull => false
      | Some JSONmessage => negb (truthy (prop JSONmessage "request_id"))
      end
  end.

(** The values of the lines that are not empty, in order. *)
Definition parsed (messages : list string) : list JSON :=
  flat_map (fun message =>
              match message with
              | EmptyString => []
              | String _ _ =>
                  match JSON_parse message with
                  | Some JSONmessage => [JSONmessage]
                  | None => []
                  end
              end) messages.

End WithRuntime.

End Framing.

Import Framing.

(* ===================================================================== *)
(** ** The constructor of the [mpv] class and the load command *)
(* ===================================================================== *)

Module MpvClass.

(** What [this.options] looks like to the [ipcInterface] that receives it:
    [debug] and [verbose] are tested for truth, [socket] is put into a
    template string. *)
Definition ipc_options_of (o : Util.NodeMPVOptions) : ipcOptions :=
  {| debug := Util.truthy_bool (Util.opt_debug o);
     socket_path := match Util.opt_socket o with
                    | value s => s
                    | undefined => "undefined"
                    | null => "null"
                    end;
     verbose_output := Util.truthy_bool (Util.opt_verbose o) |}.

(** The members the constructor sets. *)
Record mpvInstance : Type := {
  options : Util.NodeMPVOptions;
  mpv_arguments : list string;
  observed : list (string * JSON);
  observedIDs : gmap string string;
  currentTimePos : Optional Z;
  running : bool;
  socket : ipcInterface
}.

(** [new mpv(options, mpv_args)]. *)
Definition constructor (platform : string) (options : option Util.UserOptions)
           (mpv_args : option (list string)) : mpvInstance :=
  let merged := Util.mergeDefaultOptions platform options in
  {| options := merged;
     mpv_arguments :=
       Util.mpvArguments (Util.truthy_bool (Util.opt_audio_only merged)) mpv_args;
     observed := Util.observedProperties (Util.truthy_bool (Util.opt_audio_only merged));
     observedIDs := ∅;
     currentTimePos := null;
     running := false;
     socket := IpcInterface.constructor (ipc_options_of merged) |}.

(** An argument of a command: a value, or the object [formatOptions]
    makes. *)
Inductive CommandArgument : Type :=
| Plain (v : JSON)
| OptionObject (o : gmap string (option string)).

(** The arguments [load] passes to the loadfile command:
    [options ? [file, mode].concat(formatOptions(options)) : [file, mode]]. *)
Definition loadfile_arguments (file mode : string) (options : option (list string))
  : list CommandArgument :=
  match options with
  | Some l => [Plain (JString file); Plain (JString mode)] ++ [OptionObject (Util.formatOptions l)]
  | None => [Plain (JString file); Plain (JString mode)]
  end.

End MpvClass.

(* ===================================================================== *)
(** ** Concrete inputs of [lib/util.ts] *)
(* ===================================================================== *)

Module Samples.

(** The first line mpv 0.32.0 prints for [--version]. *)
Definition version_output : string :=
  "mpv 0.32.0 Copyright (C) 2000-2020 mpv/MPlayer/mplayer2 projects".

(** A build from source. *)
Definition unknown_output : string := "mpv UNKNOWN Copyright (C) 2000-2020".

(** A child process that prints [stdout], whatever binary is run. *)
Definition prints (stdout : string) : string -> unit + string := fun _ => inr stdout.

(** A stack: the text before the frame of [load], and the text after the
    space that ends the frame. *)
Definition stack_head : string :=
  "Error" ++ LF ++ "    at getCaller (/node-mpv/lib/util.js:243:23)" ++ LF ++ "    ".

Definition stack_tail : string :=
  "(/node-mpv/lib/mpv/mpv.js:72:20)" ++ LF ++
  "    at Object.<anonymous> (/app/index.js:5:5)" ++ LF ++
  "    at Module._compile (internal/modules/cjs/loader.js:1063:30)".

(** A session that has seen the start of the file in its first delivery. *)
Definition started_once : LoadSession :=
  {| observeSocket := Socket_new; timeout := 1; started := true |}.

End Samples.

(* ===================================================================== *)
(** ** Histories of an instance of [ipcInterface] *)
(* ===================================================================== *)

Module History.

Section WithRuntime.
Context {runtime : JSONRuntime}.

(** What happens to an instance: a call of [send] (every operation of the
    facade is one), a call of [freeCommand] or [quit], or an event of the
    socket. *)
Inductive Operation : Type :=
| CallSend (env : SendEnv) (command : list JSON)
| CallFreeCommand (write_throws : bool) (command : string)
| CallQuit
| OnData (data : string)
| OnClose
| OnError (error : JSON).

(** The instance after one operation; a rejection or an exception leaves
    the instance as it was when it was thrown. *)
Definition apply_operation (this : ipcInterface) (op : Operation) : ipcInterface :=
  match op with
  | CallSend env command => fst (send env command this)
  | CallFreeCommand write_throws command => freeCommand write_throws command this
  | CallQuit => quit this
  | OnData data => fst (dataHandler data this)
  | OnClose => closeHandler this
  | OnError error => errHandler error this
  end.

Definition history (ops : list Operation) (this : ipcInterface) : ipcInterface :=
  fold_left apply_operation ops this.

(** The write of the operation, if it has one in [send], does not throw. *)
Definition write_succeeds (op : Operation) : bool :=
  match op with
  | CallSend env _ => negb (write_throws env)
  | _ => true
  end.

End WithRuntime.

End History.

(* ===================================================================== *)
(** ** Auxiliary facts *)
(* ===================================================================== *)

Lemma length_pos (m : string) : m <> "" -> Nat.ltb 0 (String.length m) = true.
Proof. destruct m; [congruence | reflexivity]. Qed.

Lemma truthy_not_zero (v : JSValue) : truthy v = true -> strict_eq_number v 0 = false.
Proof.
  destruct v as [[ | b | z | s | l | ms] | ]; simpl; try reflexivity.
  intros Hz. apply negb_true_iff in Hz. exact Hz.
Qed.

Lemma forEach_app {S A E : Type} (f : S -> A -> S * Completion E)
      (before after : list A) (s s1 : S) :
  forEach f before s = (s1, Normal) ->
  forEach f (before ++ after) s = forEach f after s1.
Proof.
  revert s. induction before as [ | x before IH]; intros s Hbefore; simpl in *.
  - inversion Hbefore. reflexivity.
  - destruct (f s x) as [s' [ | e]].
    + apply IH. exact Hbefore.
    + discriminate.
Qed.


(* ===================================================================== *)
(** ** Request Correlator: dispatch *)
(* ===================================================================== *)

Section Dispatch.
Context {runtime : JSONRuntime}.

(** The shape of [dataHandler_message] on a response whose identifier is
    registered. *)
Lemma dataHandler_message_matched (this : ipcInterface) (message : string)
      (JSONmessage : JSON) (request : ipcRequest) :
  message <> "" ->
  JSON_parse message = Some JSONmessage ->
  truthy (prop JSONmessage "request_id") = true ->
  ipcRequests this !! toPropertyKey (prop JSONmessage "request_id") = Some request ->
  dataHandler_message this message =
    (set_ipcRequests
       (delete (toPropertyKey (prop JSONmessage "request_id")) (ipcRequests this))
       (settle (req_handle request)
          (if strict_eq_string (prop JSONmessage "error") "success"
           then Resolved (prop JSONmessage "data")
           else Failed (prop JSONmessage "error") (req_args request))
          this),
     Normal).
Proof.
  intros Hne Hparse Hid Hreq.
  unfold dataHandler_message.
  rewrite (length_pos _ Hne), Hparse.
  destruct JSONmessage as [ | b | z | s | l | ms]; try discriminate Hid.
  rewrite Hid, (truthy_not_zero _ Hid). cbn [andb negb].
  destruct (strict_eq_string (prop (JObject ms) "error") "success");
    rewrite Hreq; reflexivity.
Qed.

(** The shape of [dataHandler_message] on a response whose identifier is
    not registered: the member access on [undefined] throws. *)
Lemma dataHandler_message_unmatched (this : ipcInterface) (message : string)
      (JSONmessage : JSON) :
  message <> "" ->
  JSON_parse message = Some JSONmessage ->
  truthy (prop JSONmessage "request_id") = true ->
  ipcRequests this !! toPropertyKey (prop JSONmessage "request_id") = None ->
  dataHandler_message this message = (this, Throw TypeError).
Proof.
  intros Hne Hparse Hid Hreq.
  unfold dataHandler_message.
  rewrite (length_pos _ Hne), Hparse.
  destruct JSONmessage as [ | b | z | s | l | ms]; try discriminate Hid.
  rewrite Hid, (truthy_not_zero _ Hid). cbn [andb negb].
  destruct (strict_eq_string (prop (JObject ms) "error") "success");
    rewrite Hreq; reflexivity.
Qed.

(** C1.  A response whose identifier is registered completes the outcome of
    that request and of no other: with the payload when the error member is
    the string "success", with the reported error and the original command
    arguments otherwise.  The request, and only it, leaves the table; the
    call ends normally, emits no event and writes nothing.  The same
    response dispatched once more completes nothing, and a chunk holding
    that one response does what the response does. *)
Theorem dispatch_matching_response (this : ipcInterface) (message : string)
        (JSONmessage : JSON) (request : ipcRequest) :
  message <> "" ->
  JSON_parse message = Some JSONmessage ->
  truthy (prop JSONmessage "request_id") = true ->
  ipcRequests this !! toPropertyKey (prop JSONmessage "request_id") = Some request ->
  let id := toPropertyKey (prop JSONmessage "request_id") in
  let error := prop JSONmessage "error" in
  let this' := fst (dataHandler_message this message) in
  snd (dataHandler_message this message) = Normal /\
  outcomes this' =
    outcomes this ++
      [(req_handle request,
        if strict_eq_string error "success"
        then Resolved (prop JSONmessage "data")
        else Failed error (req_args request))] /\
  ipcRequests this' = delete id (ipcRequests this) /\
  ipcRequests this' !! id = None /\
  (forall id', id' <> id -> ipcRequests this' !! id' = ipcRequests this !! id') /\
  emitted this' = emitted this /\
  socket this' = socket this /\
  dataHandler_message this' message = (this', Throw TypeError) /\
  (forall data, split_lines data = [message; ""] ->
                dataHandler data this = (this', Normal)).
Proof.
  intros Hne Hparse Hid Hreq id error this'.
  pose proof (dataHandler_message_matched this message JSONmessage request
                Hne Hparse Hid Hreq) as Hstep.
  assert (Hchunk : forall data, split_lines data = [message; ""] ->
                                dataHandler data this = (this', Normal)).
  { intros data Hsplit. unfold dataHandler. rewrite Hsplit. subst this'.
    simpl. rewrite Hstep. reflexivity. }
  revert Hchunk. subst this'. rewrite Hstep. simpl. intros Hchunk.
  repeat split.
  - apply lookup_delete_eq.
  - intros id' Hother. apply lookup_delete_ne.
    intros Hsame. apply Hother. symmetry. exact Hsame.
  - apply dataHandler_message_unmatched with (JSONmessage := JSONmessage); auto.
    simpl. apply lookup_delete_eq.
  - exact Hchunk.
Qed.

End Dispatch.


Section Correlator.
Context {runtime : JSONRuntime}.

(** When the [try] block of [send] throws, the [catch] block throws in its
    turn before it rejects anything: the request stays registered and no
    outcome is completed. *)
Lemma send_catch_leaves_request (env : SendEnv) (command : list JSON)
      (this : ipcInterface) :
  destroyed (socket this) = false ->
  write_throws env = true ->
  snd (send env command this) = Throw ReferenceError /\
  ipcRequests (fst (send env command this)) !! cuid env =
    Some {| req_handle := allocated this; req_args := tl command |} /\
  outcomes (fst (send env command this)) = outcomes this /\
  written (socket (fst (send env command this))) = written (socket this).
Proof.
  intros Hopen Hthrows. unfold send. rewrite Hopen, Hthrows. simpl.
  repeat split. apply lookup_insert_eq.
Qed.

(** C2, as the code has it.  On an open socket whose write succeeds, [send]
    writes the message and ends normally, and when it returns the request it
    registered is no longer in the table: the table is the one before the
    call without the identifier, and no outcome was completed.  The response
    to this very command then finds no request and dispatch throws. *)
Theorem send_unregisters_after_write (env : SendEnv) (command : list JSON)
        (this : ipcInterface) :
  destroyed (socket this) = false ->
  write_throws env = false ->
  let this' := fst (send env command this) in
  snd (send env command this) = Normal /\
  written (socket this') =
    written (socket this) ++
      [(JSON_stringify (JObject [("command", JArray command);
                                 ("request_id", JString (cuid env))])
          ++ LF)%string] /\
  ipcRequests this' !! cuid env = None /\
  ipcRequests this' = delete (cuid env) (ipcRequests this) /\
  outcomes this' = outcomes this /\
  (forall message JSONmessage,
      message <> "" ->
      JSON_parse message = Some JSONmessage ->
      truthy (prop JSONmessage "request_id") = true ->
      toPropertyKey (prop JSONmessage "request_id") = cuid env ->
      dataHandler_message this' message = (this', Throw TypeError)).
Proof.
  intros Hopen Hwrite this'. subst this'.
  unfold send. rewrite Hopen, Hwrite. simpl.
  repeat split.
  - apply lookup_delete_eq.
  - apply delete_insert_eq.
  - intros message JSONmessage Hne Hparse Hid Hkey.
    apply dataHandler_message_unmatched with (JSONmessage := JSONmessage); auto.
    rewrite Hkey. simpl. apply lookup_delete_eq.
Qed.

(** C3, as the code has it.  [closeHandler] destroys the socket, once, and
    logs one line when the debug option is set, and does nothing else to the
    instance: every request stays registered, no outcome is completed, no
    event is emitted and nothing is written. *)
Theorem close_destroys_socket_only (this : ipcInterface) :
  let this' := closeHandler this in
  destroyed (socket this') = true /\
  destroy_calls (socket this') = S (destroy_calls (socket this)) /\
  ipcRequests this' = ipcRequests this /\
  outcomes this' = outcomes this /\
  emitted this' = emitted this /\
  written (socket this') = written (socket this) /\
  console this' = (if debug (options this)
                   then console this ++ [LogSocketClosed]
                   else console this) /\
  options this' = options this /\
  allocated this' = allocated this.
Proof.
  unfold closeHandler. destruct (debug (options this)); simpl; repeat split.
Qed.

(** C8, as the code has it.  On a destroyed socket [send] changes nothing:
    the table of requests is the one before the call and nothing is
    written.  Its promise is rejected with error 8, "MPV is not running",
    naming the caller, when [getCaller] finds a frame on the stack; when it
    finds none, [send] is rejected with the TypeError of [getCaller]. *)
Theorem send_when_destroyed (env : SendEnv) (command : list JSON)
        (this : ipcInterface) :
  destroyed (socket this) = true ->
  fst (send env command this) = this /\
  ipcRequests (fst (send env command this)) = ipcRequests this /\
  (ipcRequests this = ∅ -> ipcRequests (fst (send env command this)) = ∅) /\
  written (socket (fst (send env command this))) = written (socket this) /\
  (forall caller,
      Util.getCaller (stack env) = Some caller ->
      let error := errorMessage 8 caller undefined undefined undefined in
      snd (send env command this) = Throw (Thrown error) /\
      errcode error = 8 /\
      verbose error = Some "MPV is not running") /\
  (Util.getCaller (stack env) = None ->
   snd (send env command this) = Throw TypeError).
Proof.
  intros Hclosed. unfold send. rewrite Hclosed.
  destruct (Util.getCaller (stack env)) as [caller | ]; simpl;
    (split; [reflexivity | ]); (split; [reflexivity | ]);
    (split; [intros Hempty; exact Hempty | ]); (split; [reflexivity | ]); split.
  - intros caller' Hcaller. inversion Hcaller. repeat split.
  - discriminate.
  - discriminate.
  - reflexivity.
Qed.

(** C10.  The generic command with [undefined] or [null] for its argument
    list is the generic command with the empty list: the list handed to
    [send] is the command name alone. *)
Theorem command_without_args (env : SendEnv) (c : string) (this : ipcInterface) :
  command env c undefined this = command env c (value []) this /\
  command env c null this = command env c (value []) this /\
  command env c undefined this = send env [JString c] this /\
  command env c null this = send env [JString c] this.
Proof. unfold command. repeat split. Qed.

(** C7, as the code has it.  A message that is not JSON, or a response
    whose identifier is not registered, ends the processing of its chunk
    with an exception: the instance is left as the messages before it left
    it, so the bad message completes and removes nothing, and the messages
    after it are not processed. *)
Theorem bad_message_aborts_chunk (this this1 : ipcInterface) (data : string)
        (before : list string) (bad : string) (after : list string) :
  split_lines data = before ++ bad :: after ->
  forEach dataHandler_message before this = (this1, Normal) ->
  bad <> "" ->
  (JSON_parse bad = None ->
   dataHandler data this = (this1, Throw SyntaxError)) /\
  (forall JSONmessage,
      JSON_parse bad = Some JSONmessage ->
      truthy (prop JSONmessage "request_id") = true ->
      ipcRequests this1 !! toPropertyKey (prop JSONmessage "request_id") = None ->
      dataHandler data this = (this1, Throw TypeError)).
Proof.
  intros Hsplit Hbefore Hne.
  unfold dataHandler. rewrite Hsplit, (forEach_app _ _ _ _ _ Hbefore).
  split.
  - intros Hparse. simpl. unfold dataHandler_message.
    rewrite (length_pos _ Hne), Hparse. reflexivity.
  - intros JSONmessage Hparse Hid Hreq. simpl.
    rewrite (dataHandler_message_unmatched this1 bad JSONmessage Hne Hparse Hid Hreq).
    reflexivity.
Qed.

End Correlator.

(* ===================================================================== *)
(** ** Load Orchestrator *)
(* ===================================================================== *)

Section Lifecycle.
Context {runtime : JSONRuntime}.
Variables caller file : string.

Lemma strict_eq_string_true (v : JSValue) (name : string) :
  strict_eq_string v name = true -> v = Some (JString name).
Proof.
  destruct v as [[ | b | z | s | l | ms] | ]; simpl; try discriminate.
  intros Hs. apply String.eqb_eq in Hs. subst s. reflexivity.
Qed.

Lemma is_event_true (name m : string) :
  is_event name m = true ->
  m <> "" /\
  exists message,
    JSON_parse m = Some message /\ prop message "event" = Some (JString name).
Proof.
  unfold is_event. intros Hev. apply andb_true_iff in Hev. destruct Hev as [Hne Hev].
  split.
  - intros ->. discriminate.
  - destruct (JSON_parse m) as [message | ]; [ | discriminate].
    exists message. split; [reflexivity | ]. apply strict_eq_string_true. exact Hev.
Qed.

Ltac open_load_message Hev :=
  let Hne := fresh "Hne" in
  let message := fresh "message" in
  let Hparse := fresh "Hparse" in
  let Hname := fresh "Hname" in
  apply is_event_true in Hev;
  destruct Hev as (Hne & message & Hparse & Hname);
  unfold load_message;
  rewrite (length_pos _ Hne), Hparse;
  destruct message; try discriminate Hname;
  rewrite Hname.

Lemma load_message_start_file (s : LoadSession) (m : string) :
  is_event "start-file" m = true ->
  load_message caller file s m = (set_started true s, Normal).
Proof. intros Hev. open_load_message Hev. reflexivity. Qed.

Lemma load_message_file_loaded (s : LoadSession) (m : string) :
  is_event "file-loaded" m = true ->
  load_message caller file s m =
    if started s then (observeSocket_destroy s, Normal) else (s, Normal).
Proof. intros Hev. open_load_message Hev. simpl. destruct (started s); reflexivity. Qed.

Lemma load_message_end_file (s : LoadSession) (m : string) :
  is_event "end-file" m = true ->
  load_message caller file s m =
    if started s
    then (observeSocket_destroy s,
          Throw (Thrown (errorMessage 0 caller (value [JString file]) undefined undefined)))
    else (s, Normal).
Proof. intros Hev. open_load_message Hev. simpl. destruct (started s); reflexivity. Qed.

(** A delivery: the counter goes up, the messages are processed up to the
    first that throws, and the counter is compared when none did. *)
Lemma load_data_steps (data : string) (s : LoadSession) (ms : list string) :
  split_lines data = ms ->
  load_data caller file data s =
    match forEach (load_message caller file) ms (set_timeout (timeout s + 1) s) with
    | (s1, Throw e) => (s1, Throw e)
    | (s1, Normal) =>
        if Nat.ltb 10 (timeout s1)
        then (observeSocket_destroy s1,
              Throw (Thrown (errorMessage 5 caller (value [JString file])
                               undefined undefined)))
        else (s1, Normal)
    end.
Proof. intros <-. reflexivity. Qed.

(** On the delivery that takes the counter above ten, a file-loaded event
    after a start destroys the socket, and the counter is compared all the
    same: the socket is destroyed a second time and error 5 is thrown. *)
Remark load_file_loaded_on_late_delivery (s : LoadSession) (data mLoaded : string) :
  is_event "file-loaded" mLoaded = true ->
  split_lines data = [mLoaded; ""] ->
  started s = true ->
  10 <= timeout s ->
  load_data caller file data s =
    (observeSocket_destroy (observeSocket_destroy (set_timeout (timeout s + 1) s)),
     Throw (Thrown (errorMessage 5 caller (value [JString file]) undefined undefined))).
Proof.
  intros Hloaded Hsplit Hstarted Hlate.
  unfold load_data. rewrite Hsplit. simpl.
  rewrite (load_message_file_loaded _ _ Hloaded). simpl. rewrite Hstarted.
  assert (Hover : Nat.ltb 10 (timeout s + 1) = true) by (apply Nat.ltb_lt; lia).
  simpl. rewrite Hover. reflexivity.
Qed.

(** C4, as the code has it.  In mode replace the waiting phase begins with
    no start observed.  A start-file event records the start; a file-loaded
    event after it destroys the observation socket and raises nothing; an
    end-file event after it destroys the socket and throws error 0, "Unable
    to load file or stream"; before any start-file event both leave the
    session as it is.  So a delivery among the first ten that brings
    file-loaded after the start ends with the socket destroyed and no
    error, and one that brings end-file after the start ends with error 0.
    But the [return] after file-loaded only leaves the callback of
    [forEach]: the counter is compared at the end of the delivery all the
    same, and the messages after file-loaded are still processed.  On a
    delivery after the tenth, file-loaded after the start destroys the
    socket twice and throws the Timeout error 5; and an end-file event that
    follows file-loaded in its delivery destroys the socket a second time
    and throws error 0. *)
Theorem load_replace_lifecycle (observeSocket : Socket) (playlistSize : Z)
        (mStart mLoaded mEnd : string) :
  is_event "start-file" mStart = true ->
  is_event "file-loaded" mLoaded = true ->
  is_event "end-file" mEnd = true ->
  let failure := errorMessage 0 caller (value [JString file]) undefined undefined in
  let expired := errorMessage 5 caller (value [JString file]) undefined undefined in
  let counted s := set_timeout (timeout s + 1) s in
  (* the waiting phase begins *)
  load_connected "replace" (Fulfilled tt) (Fulfilled playlistSize) observeSocket =
    Listening (fresh_session observeSocket) /\
  started (fresh_session observeSocket) = false /\
  (* one message *)
  (forall s, load_message caller file s mStart = (set_started true s, Normal)) /\
  (forall s, started s = true ->
             load_message caller file s mLoaded = (observeSocket_destroy s, Normal)) /\
  (forall s, started s = true ->
             load_message caller file s mEnd =
               (observeSocket_destroy s, Throw (Thrown failure))) /\
  (forall s, started s = false ->
             load_message caller file s mLoaded = (s, Normal) /\
             load_message caller file s mEnd = (s, Normal)) /\
  (forall s, destroyed (Mpv.observeSocket (observeSocket_destroy s)) = true /\
             destroy_calls (Mpv.observeSocket (observeSocket_destroy s)) =
               S (destroy_calls (Mpv.observeSocket s)) /\
             started (observeSocket_destroy s) = started s) /\
  (* one delivery among the first ten *)
  (forall s data,
      timeout s < 10 ->
      (split_lines data = [mStart; mLoaded; ""] ->
       load_data caller file data s =
         (observeSocket_destroy (set_started true (counted s)), Normal)) /\
      (started s = true -> split_lines data = [mLoaded; ""] ->
       load_data caller file data s = (observeSocket_destroy (counted s), Normal)) /\
      (started s = false ->
       split_lines data = [mLoaded; ""] \/ split_lines data = [mEnd; ""] ->
       load_data caller file data s = (counted s, Normal))) /\
  (* end-file after the start, in any delivery *)
  (forall s data,
      (split_lines data = [mStart; mEnd; ""] ->
       load_data caller file data s =
         (observeSocket_destroy (set_started true (counted s)), Throw (Thrown failure))) /\
      (started s = true -> split_lines data = [mEnd; ""] ->
       load_data caller file data s =
         (observeSocket_destroy (counted s), Throw (Thrown failure)))) /\
  (* two deliveries of a fresh session *)
  (destroyed observeSocket = false ->
   forall first second,
     split_lines first = [mStart; ""] ->
     (split_lines second = [mLoaded; ""] ->
      load_deliveries caller file [first; second] (fresh_session observeSocket) =
        ({| Mpv.observeSocket := Socket_destroy observeSocket;
            timeout := 2; started := true |}, [])) /\
     (split_lines second = [mEnd; ""] ->
      load_deliveries caller file [first; second] (fresh_session observeSocket) =
        ({| Mpv.observeSocket := Socket_destroy observeSocket;
            timeout := 2; started := true |}, [Thrown failure]))) /\
  (* where the code leaves the claim *)
  (forall s data,
      10 <= timeout s ->
      (started s = true -> split_lines data = [mLoaded; ""] ->
       load_data caller file data s =
         (observeSocket_destroy (observeSocket_destroy (counted s)),
          Throw (Thrown expired))) /\
      (split_lines data = [mStart; mLoaded; ""] ->
       load_data caller file data s =
         (observeSocket_destroy (observeSocket_destroy (set_started true (counted s))),
          Throw (Thrown expired)))) /\
  (forall s data,
      started s = true -> split_lines data = [mLoaded; mEnd; ""] ->
      load_data caller file data s =
        (observeSocket_destroy (observeSocket_destroy (counted s)),
         Throw (Thrown failure))) /\
  errcode failure = 0 /\
  verbose failure = Some "Unable to load file or stream" /\
  errcode expired = 5 /\
  verbose expired = Some "Timeout".
Proof.
  intros Hstart Hloaded Hend failure expired counted.
  pose proof (load_message_start_file) as Hs.
  pose proof (load_message_file_loaded) as Hl.
  pose proof (load_message_end_file) as He.
  assert (Hearly : forall s, timeout s < 10 -> Nat.ltb 10 (timeout s + 1) = false)
    by (intros s Hlt; apply Nat.ltb_ge; lia).
  assert (Hlate : forall s, 10 <= timeout s -> Nat.ltb 10 (timeout s + 1) = true)
    by (intros s Hle; apply Nat.ltb_lt; lia).
  split; [reflexivity | ]. split; [reflexivity | ].
  split; [intros s; apply Hs; exact Hstart | ].
  split; [intros s Hst; rewrite (Hl s _ Hloaded), Hst; reflexivity | ].
  split; [intros s Hst; rewrite (He s _ Hend), Hst; reflexivity | ].
  split.
  { intros s Hst. rewrite (Hl s _ Hloaded), (He s _ Hend), Hst. split; reflexivity. }
  split; [intros s; repeat split | ].
  split.
  { intros s data Hlt. specialize (Hearly s Hlt). split; [ | split].
    - intros Hsplit. rewrite (load_data_steps data s _ Hsplit). cbn [forEach].
      rewrite (Hs _ _ Hstart), (Hl _ _ Hloaded). simpl. rewrite Hearly. reflexivity.
    - intros Hst Hsplit. rewrite (load_data_steps data s _ Hsplit). cbn [forEach].
      rewrite (Hl _ _ Hloaded). simpl. rewrite Hst. simpl. rewrite Hearly. reflexivity.
    - intros Hst [Hsplit | Hsplit]; rewrite (load_data_steps data s _ Hsplit);
        cbn [forEach]; [rewrite (Hl _ _ Hloaded) | rewrite (He _ _ Hend)];
        simpl; rewrite Hst; simpl; rewrite Hearly; reflexivity. }
  split.
  { intros s data. split.
    - intros Hsplit. rewrite (load_data_steps data s _ Hsplit). cbn [forEach].
      rewrite (Hs _ _ Hstart), (He _ _ Hend). reflexivity.
    - intros Hst Hsplit. rewrite (load_data_steps data s _ Hsplit). cbn [forEach].
      rewrite (He _ _ Hend). simpl. rewrite Hst. reflexivity. }
  split.
  { intros Hopen first second Hfirst.
    assert (Hone : load_data caller file first (fresh_session observeSocket) =
                   ({| Mpv.observeSocket := observeSocket; timeout := 1; started := true |},
                    Normal)).
    { unfold load_data. rewrite Hfirst. simpl. rewrite (Hs _ _ Hstart). reflexivity. }
    split; intros Hsecond; simpl; rewrite Hopen, Hone; simpl; rewrite Hopen;
      unfold load_data; rewrite Hsecond; simpl.
    - rewrite (Hl _ _ Hloaded). reflexivity.
    - rewrite (He _ _ Hend). reflexivity. }
  split.
  { intros s data Hle. specialize (Hlate s Hle). split.
    - intros Hst Hsplit. rewrite (load_data_steps data s _ Hsplit). cbn [forEach].
      rewrite (Hl _ _ Hloaded). simpl. rewrite Hst. simpl. rewrite Hlate. reflexivity.
    - intros Hsplit. rewrite (load_data_steps data s _ Hsplit). cbn [forEach].
      rewrite (Hs _ _ Hstart), (Hl _ _ Hloaded). simpl. rewrite Hlate. reflexivity. }
  split.
  { intros s data Hst Hsplit. rewrite (load_data_steps data s _ Hsplit). cbn [forEach].
    rewrite (Hl _ _ Hloaded). simpl. rewrite Hst. simpl.
    rewrite (He _ _ Hend). simpl. rewrite Hst. reflexivity. }
  repeat split.
Qed.

(** C6.  Once the load command and the playlist query have returned, mode
    append, and mode append-play with a playlist of more than one entry,
    destroy the observation socket and return without registering a data
    listener.  Mode append-play with a playlist of one entry or none
    registers the listener and leaves the socket open. *)
Theorem load_silent_success (observeSocket : Socket) (playlistSize : Z) :
  load_connected "append" (Fulfilled tt) (Fulfilled playlistSize) observeSocket =
    Returned (Socket_destroy observeSocket) /\
  ((1 < playlistSize)%Z ->
   load_connected "append-play" (Fulfilled tt) (Fulfilled playlistSize) observeSocket =
     Returned (Socket_destroy observeSocket)) /\
  ((playlistSize <= 1)%Z ->
   load_connected "append-play" (Fulfilled tt) (Fulfilled playlistSize) observeSocket =
     Listening (fresh_session observeSocket)) /\
  load_connected "append-play" (Fulfilled tt) (Fulfilled 1%Z) observeSocket =
    Listening (fresh_session observeSocket) /\
  destroyed (Socket_destroy observeSocket) = true.
Proof.
  unfold load_connected. simpl.
  split; [reflexivity | ].
  split.
  { intros Hmany. apply Z.ltb_lt in Hmany. rewrite Hmany. reflexivity. }
  split.
  { intros Hfew. apply Z.ltb_ge in Hfew. rewrite Hfew. reflexivity. }
  split; reflexivity.
Qed.

End Lifecycle.



(* ===================================================================== *)
(** ** Load Orchestrator: the poll counter *)
(* ===================================================================== *)

Section PollCounter.
Context {runtime : JSONRuntime}.
Variables caller file : string.

(** No message changes the poll counter. *)
Lemma load_message_timeout (s : LoadSession) (m : string) :
  timeout (fst (load_message caller file s m)) = timeout s.
Proof.
  unfold load_message.
  destruct (Nat.ltb 0 (String.length m)); [ | reflexivity].
  destruct (JSON_parse m) as [message | ]; [ | reflexivity].
  destruct message; try reflexivity;
    repeat match goal with
           | |- context [if ?b then _ else _] => destruct b
           end; reflexivity.
Qed.

Lemma forEach_load_message_timeout (ms : list string) (s : LoadSession) :
  timeout (fst (forEach (load_message caller file) ms s)) = timeout s.
Proof.
  revert s. induction ms as [ | m ms IH]; intros s; simpl; [reflexivity | ].
  pose proof (load_message_timeout s m) as Hm.
  destruct (load_message caller file s m) as [s' [ | e]]; simpl in *.
  - rewrite IH. exact Hm.
  - exact Hm.
Qed.

(** A well-formed message either leaves the socket alone and ends normally,
    or destroys it. *)
Lemma load_message_well_formed (s : LoadSession) (m : string) :
  well_formed m = true ->
  (destroyed (observeSocket s) = true ->
   destroyed (observeSocket (fst (load_message caller file s m))) = true) /\
  (snd (load_message caller file s m) <> Normal ->
   destroyed (observeSocket (fst (load_message caller file s m))) = true) /\
  (terminal_event m = false ->
   snd (load_message caller file s m) = Normal /\
   observeSocket (fst (load_message caller file s m)) = observeSocket s).
Proof.
  unfold well_formed, terminal_event, is_event, load_message.
  destruct m as [ | c m]; [intros _; simpl; intuition congruence | ].
  cbn [String.length Nat.ltb Nat.leb String.eqb negb andb].
  destruct (JSON_parse (String c m)) as [message | ]; [ | discriminate].
  destruct message; try discriminate; intros _; cbn [prop];
    repeat match goal with
           | |- context [truthy ?v] => destruct (truthy v)
           | |- context [strict_eq_string ?v ?n] => destruct (strict_eq_string v n)
           | |- context [started ?x] => destruct (started x)
           end; simpl; intuition congruence.
Qed.

Lemma forEach_load_message_well_formed (ms : list string) (s : LoadSession) :
  forallb well_formed ms = true ->
  (destroyed (observeSocket s) = true ->
   destroyed (observeSocket (fst (forEach (load_message caller file) ms s))) = true) /\
  (snd (forEach (load_message caller file) ms s) <> Normal ->
   destroyed (observeSocket (fst (forEach (load_message caller file) ms s))) = true) /\
  (forallb (fun m => negb (terminal_event m)) ms = true ->
   snd (forEach (load_message caller file) ms s) = Normal /\
   observeSocket (fst (forEach (load_message caller file) ms s)) = observeSocket s).
Proof.
  revert s. induction ms as [ | m ms IH]; intros s Hwf; simpl in *.
  - intuition congruence.
  - apply andb_true_iff in Hwf. destruct Hwf as [Hm Hms].
    destruct (load_message_well_formed s m Hm) as (Hkeep & Hthrow & Hquiet).
    destruct (load_message caller file s m) as [s' [ | e]]; simpl in *.
    + destruct (IH s' Hms) as (IHkeep & IHthrow & IHquiet).
      split; [auto | ]. split; [auto | ].
      intros Hnone. apply andb_true_iff in Hnone. destruct Hnone as [Hnm Hnms].
      apply negb_true_iff in Hnm.
      destruct (Hquiet Hnm) as [_ Hsame]. destruct (IHquiet Hnms) as [Hn Hs].
      split; [exact Hn | congruence].
    + split; [auto | ]. split; [intros _; apply Hthrow; discriminate | ].
      intros Hnone. apply andb_true_iff in Hnone. destruct Hnone as [Hnm _].
      apply negb_true_iff in Hnm. destruct (Hquiet Hnm) as [Hn _]. discriminate.
Qed.

(** Every delivery adds one to the poll counter. *)
Lemma load_data_timeout (data : string) (s : LoadSession) :
  timeout (fst (load_data caller file data s)) = timeout s + 1.
Proof.
  unfold load_data.
  pose proof (forEach_load_message_timeout (split_lines data)
                (set_timeout (timeout s + 1) s)) as Hn.
  destruct (forEach (load_message caller file) (split_lines data)
              (set_timeout (timeout s + 1) s)) as [s' [ | e]]; simpl in *.
  - destruct (Nat.ltb 10 (timeout s')); exact Hn.
  - exact Hn.
Qed.

(** A well-formed delivery ends with the socket destroyed, or normally with
    the counter at ten or less. *)
Lemma load_data_well_formed (data : string) (s : LoadSession) :
  forallb well_formed (split_lines data) = true ->
  destroyed (observeSocket (fst (load_data caller file data s))) = true \/
  (snd (load_data caller file data s) = Normal /\
   timeout (fst (load_data caller file data s)) <= 10).
Proof.
  intros Hwf. unfold load_data.
  destruct (forEach_load_message_well_formed (split_lines data)
              (set_timeout (timeout s + 1) s) Hwf) as (_ & Hthrow & _).
  destruct (forEach (load_message caller file) (split_lines data)
              (set_timeout (timeout s + 1) s)) as [s' [ | e]]; simpl in *.
  - destruct (Nat.ltb 10 (timeout s')) eqn:Hover; simpl.
    + left. reflexivity.
    + right. split; [reflexivity | ]. apply Nat.ltb_ge in Hover. exact Hover.
  - left. apply Hthrow. discriminate.
Qed.

Lemma load_deliveries_destroyed (chunks : list string) (s : LoadSession) :
  destroyed (observeSocket s) = true ->
  load_deliveries caller file chunks s = (s, []).
Proof. intros Hs. destruct chunks; simpl; [ | rewrite Hs]; reflexivity. Qed.

Lemma load_deliveries_bounded (chunks : list string) (s : LoadSession) :
  Forall (fun data => forallb well_formed (split_lines data) = true) chunks ->
  (destroyed (observeSocket s) = false -> timeout s <= 10) ->
  11 <= timeout s + length chunks ->
  destroyed (observeSocket (fst (load_deliveries caller file chunks s))) = true.
Proof.
  revert s. induction chunks as [ | data chunks IH]; intros s Hwf Hinv Hlen; simpl in *.
  - destruct (destroyed (observeSocket s)); [reflexivity | ].
    specialize (Hinv eq_refl). lia.
  - destruct (destroyed (observeSocket s)) eqn:Hs; [exact Hs | ].
    inversion Hwf as [ | ? ? Hdata Hrest]; subst.
    pose proof (load_data_timeout data s) as Hn.
    pose proof (load_data_well_formed data s Hdata) as Hstep.
    destruct (load_data caller file data s) as [s' [ | e]]; simpl in *.
    + apply IH; [exact Hrest | | lia].
      intros Hopen. destruct Hstep as [Hd | [_ Hle]]; [congruence | exact Hle].
    + destruct Hstep as [Hd | [Habs _]]; [ | discriminate].
      rewrite (load_deliveries_destroyed chunks s' Hd). exact Hd.
Qed.

(** C5, as the code has it.  Every delivery adds exactly one to the poll
    counter, whatever it contains.  A delivery that takes the counter above
    ten, whose messages are all well-formed and none of which is a terminal
    event, destroys the observation socket and throws error 5, "Timeout".
    A session fed well-formed deliveries has its socket destroyed by the
    eleventh at the latest. *)
Theorem load_poll_counter (observeSocket : Socket) :
  let expired := errorMessage 5 caller (value [JString file]) undefined undefined in
  (forall data s, timeout (fst (load_data caller file data s)) = timeout s + 1) /\
  (forall data s,
      10 <= timeout s ->
      forallb well_formed (split_lines data) = true ->
      forallb (fun m => negb (terminal_event m)) (split_lines data) = true ->
      snd (load_data caller file data s) = Throw (Thrown expired) /\
      destroyed (Mpv.observeSocket (fst (load_data caller file data s))) = true) /\
  (forall chunks,
      Forall (fun data => forallb well_formed (split_lines data) = true) chunks ->
      11 <= length chunks ->
      destroyed (Mpv.observeSocket
                   (fst (load_deliveries caller file chunks (fresh_session observeSocket))))
        = true) /\
  errcode expired = 5 /\
  verbose expired = Some "Timeout".
Proof.
  intros expired.
  split; [apply load_data_timeout | ].
  split.
  { intros data s Hlate Hwf Hquiet. unfold load_data.
    pose proof (forEach_load_message_timeout (split_lines data)
                  (set_timeout (timeout s + 1) s)) as Hn.
    destruct (forEach_load_message_well_formed (split_lines data)
                (set_timeout (timeout s + 1) s) Hwf) as (_ & _ & Hnormal).
    destruct (Hnormal Hquiet) as [Hc _].
    destruct (forEach (load_message caller file) (split_lines data)
                (set_timeout (timeout s + 1) s)) as [s' c]; simpl in *.
    subst c.
    assert (Hover : Nat.ltb 10 (timeout s') = true) by (apply Nat.ltb_lt; lia).
    rewrite Hover. split; reflexivity. }
  split.
  { intros chunks Hwf Hlen. apply load_deliveries_bounded; simpl; [exact Hwf | lia | lia]. }
  split; reflexivity.
Qed.

End PollCounter.

(* ===================================================================== *)
(** ** The theorems on concrete inputs *)
(* ===================================================================== *)

Lemma nonempty_by_length (s : string) : String.length s <> 0 -> s <> "".
Proof. intros Hs ->. apply Hs. reflexivity. Defined.

(** C1 on the instance with one pending request, for a success response
    and for an error response. *)
Lemma dispatch_matching_response_witness :
  Examples.success_response <> "" /\
  ipcRequests Examples.one_pending !! "ck1" = Some Examples.volume_request /\
  outcomes (fst (dataHandler_message Examples.one_pending Examples.success_response)) =
    [(0, Resolved (Some (JNumber 50)))] /\
  ipcRequests (fst (dataHandler_message Examples.one_pending Examples.success_response))
    !! "ck1" = None /\
  snd (dataHandler (Examples.chunk [Examples.success_response]) Examples.one_pending) =
    Normal /\
  outcomes (fst (dataHandler_message Examples.one_pending Examples.error_response)) =
    [(0, Failed (Some (JString "property unavailable")) [JString "volume"])].
Proof.
  assert (Hregistered : ipcRequests Examples.one_pending !! "ck1"
                        = Some Examples.volume_request) by (vm_compute; reflexivity).
  assert (Hne : Examples.success_response <> "")
    by (apply nonempty_by_length; vm_compute; discriminate).
  destruct (dispatch_matching_response Examples.one_pending Examples.success_response
              (JObject [("request_id", JString "ck1"); ("error", JString "success");
                        ("data", JNumber 50)])
              Examples.volume_request Hne)
    as (_ & Hout & _ & Hgone & _ & _ & _ & _ & Hchunk);
    [vm_compute; reflexivity | reflexivity | exact Hregistered | ].
  destruct (dispatch_matching_response Examples.one_pending Examples.error_response
              (JObject [("request_id", JString "ck1");
                        ("error", JString "property unavailable")])
              Examples.volume_request)
    as (_ & Hfail & _);
    [apply nonempty_by_length; vm_compute; discriminate
    | vm_compute; reflexivity | reflexivity | exact Hregistered | ].
  split; [exact Hne | ]. split; [exact Hregistered | ].
  split; [exact Hout | ]. split; [exact Hgone | ].
  split; [ | exact Hfail].
  rewrite (Hchunk (Examples.chunk [Examples.success_response]) eq_refl). reflexivity.
Defined.

(** C2, as the code has it, on a connected instance: the request is gone
    when [send] returns and its response throws. *)
Lemma send_unregisters_after_write_witness :
  destroyed (socket Examples.connected) = false /\
  write_throws Examples.volume_env = false /\
  ipcRequests (fst (send Examples.volume_env Examples.get_volume
                         Examples.connected)) !! "ck1" = None /\
  dataHandler_message
    (fst (send Examples.volume_env Examples.get_volume Examples.connected))
    Examples.success_response =
    (fst (send Examples.volume_env Examples.get_volume Examples.connected),
     Throw TypeError).
Proof.
  destruct (send_unregisters_after_write Examples.volume_env Examples.get_volume
              Examples.connected eq_refl eq_refl)
    as (_ & _ & Hgone & _ & _ & Hlate).
  split; [reflexivity | ]. split; [reflexivity | ]. split; [exact Hgone | ].
  apply Hlate with (JSONmessage :=
                      JObject [("request_id", JString "ck1"); ("error", JString "success");
                               ("data", JNumber 50)]).
  - apply nonempty_by_length. vm_compute. discriminate.
  - vm_compute. reflexivity.
  - reflexivity.
  - reflexivity.
Defined.

(** C3 fails on one pending request: after the close it is still
    registered and nothing was completed. *)
Lemma close_leaves_request_pending :
  ~ Claims.close_fails_all_pending Examples.one_pending /\
  ipcRequests (closeHandler Examples.one_pending) !! "ck1" = Some Examples.volume_request /\
  outcomes (closeHandler Examples.one_pending) = [].
Proof.
  assert (Hstill : ipcRequests (closeHandler Examples.one_pending) !! "ck1"
                   = Some Examples.volume_request) by (vm_compute; reflexivity).
  split; [ | split; [exact Hstill | reflexivity]].
  intros [_ Hempty]. cbv zeta in Hempty.
  rewrite Hempty, lookup_empty in Hstill. discriminate.
Qed.

(** C8, as the code has it, on an instance whose socket was closed by the
    peer: called from a method of the [mpv] class, and called from a timer,
    where no frame of the stack is recognised. *)
Lemma send_when_destroyed_witness :
  destroyed (socket (closeHandler Examples.connected)) = true /\
  Util.getCaller (stack Examples.volume_env) = Some "getProperty()"%string /\
  snd (send Examples.volume_env Examples.get_volume
            (closeHandler Examples.connected)) =
    Throw (Thrown (errorMessage 8 "getProperty()" undefined undefined undefined)) /\
  Util.getCaller (stack Examples.timer_env) = None /\
  snd (send Examples.timer_env Examples.get_volume
            (closeHandler Examples.connected)) = Throw TypeError /\
  ipcRequests (fst (send Examples.timer_env Examples.get_volume
                         (closeHandler Examples.connected))) = ∅ /\
  written (socket (fst (send Examples.timer_env Examples.get_volume
                             (closeHandler Examples.connected)))) = [].
Proof.
  assert (Hnamed : Util.getCaller (stack Examples.volume_env) = Some "getProperty()"%string)
    by (vm_compute; reflexivity).
  assert (Hnone : Util.getCaller (stack Examples.timer_env) = None)
    by (vm_compute; reflexivity).
  destruct (send_when_destroyed Examples.volume_env Examples.get_volume
              (closeHandler Examples.connected) eq_refl)
    as (_ & _ & _ & _ & Hrejected & _).
  destruct (send_when_destroyed Examples.timer_env Examples.get_volume
              (closeHandler Examples.connected) eq_refl)
    as (_ & _ & Hempty & Hwritten & _ & Hthrown).
  split; [reflexivity | ].
  split; [exact Hnamed | ].
  split; [exact (proj1 (Hrejected _ Hnamed)) | ].
  split; [exact Hnone | ].
  split; [exact (Hthrown Hnone) | ].
  split; [apply Hempty; reflexivity | exact Hwritten].
Defined.

(** C7 fails on a chunk of two messages: the first is cut off, or answers
    no registered request, and the pause event after it is never emitted. *)
Lemma bad_message_not_contained :
  ~ Claims.bad_message_contained Examples.connected
      [] Examples.truncated [Examples.pause_event; ""] /\
  ~ Claims.bad_message_contained Examples.connected
      [] Examples.stray_response [Examples.pause_event; ""] /\
  dataHandler (Examples.chunk [Examples.truncated; Examples.pause_event])
              Examples.connected = (Examples.connected, Throw SyntaxError) /\
  dataHandler (Examples.chunk [Examples.stray_response; Examples.pause_event])
              Examples.connected = (Examples.connected, Throw TypeError) /\
  dataHandler (Examples.chunk [Examples.pause_event]) Examples.connected =
    (emit_message (JObject [("event", JString "pause")]) Examples.connected, Normal).
Proof.
  assert (Hcut : dataHandler (Examples.chunk [Examples.truncated; Examples.pause_event])
                             Examples.connected = (Examples.connected, Throw SyntaxError))
    by (vm_compute; reflexivity).
  assert (Hstray : dataHandler (Examples.chunk [Examples.stray_response; Examples.pause_event])
                               Examples.connected = (Examples.connected, Throw TypeError))
    by (vm_compute; reflexivity).
  split; [ | split; [ | split; [exact Hcut | split; [exact Hstray | vm_compute; reflexivity]]]].
  - intros Hclaim.
    specialize (Hclaim (Examples.chunk [Examples.truncated; Examples.pause_event]) eq_refl).
    rewrite Hcut in Hclaim. vm_compute in Hclaim. discriminate.
  - intros Hclaim.
    specialize (Hclaim (Examples.chunk [Examples.stray_response; Examples.pause_event])
                       eq_refl).
    rewrite Hstray in Hclaim. vm_compute in Hclaim. discriminate.
Qed.

(** C7, as the code has it, on chunks of three messages with the bad one in
    the middle. *)
Lemma bad_message_aborts_chunk_witness :
  dataHandler (Examples.chunk [Examples.pause_event; Examples.truncated; Examples.pause_event])
              Examples.one_pending =
    (emit_message (JObject [("event", JString "pause")]) Examples.one_pending,
     Throw SyntaxError) /\
  dataHandler (Examples.chunk [Examples.pause_event; Examples.stray_response;
                               Examples.pause_event])
              Examples.one_pending =
    (emit_message (JObject [("event", JString "pause")]) Examples.one_pending,
     Throw TypeError).
Proof.
  split.
  - apply (bad_message_aborts_chunk Examples.one_pending
             (emit_message (JObject [("event", JString "pause")]) Examples.one_pending)
             (Examples.chunk [Examples.pause_event; Examples.truncated; Examples.pause_event])
             [Examples.pause_event] Examples.truncated [Examples.pause_event; ""]).
    + reflexivity.
    + vm_compute. reflexivity.
    + apply nonempty_by_length. vm_compute. discriminate.
    + vm_compute. reflexivity.
  - apply (bad_message_aborts_chunk Examples.one_pending
             (emit_message (JObject [("event", JString "pause")]) Examples.one_pending)
             (Examples.chunk [Examples.pause_event; Examples.stray_response;
                              Examples.pause_event])
             [Examples.pause_event] Examples.stray_response [Examples.pause_event; ""])
      with (JSONmessage := JObject [("request_id", JString "zz9");
                                    ("error", JString "success")]).
    + reflexivity.
    + vm_compute. reflexivity.
    + apply nonempty_by_length. vm_compute. discriminate.
    + vm_compute. reflexivity.
    + reflexivity.
    + vm_compute. reflexivity.
Defined.

(** C4, as the code has it, on the three lifecycle events as mpv writes
    them: start-file and file-loaded in the first delivery, and file-loaded
    in the eleventh delivery of a session that started in its first. *)
Lemma load_replace_lifecycle_witness :
  is_event "start-file" Examples.start_file = true /\
  is_event "file-loaded" Examples.file_loaded = true /\
  is_event "end-file" Examples.end_file = true /\
  load_data "load()" "song.mp3"
            (Examples.chunk [Examples.start_file; Examples.file_loaded])
            (fresh_session Socket_new) =
    ({| observeSocket := Socket_destroy Socket_new; timeout := 1; started := true |},
     Normal) /\
  load_data "load()" "song.mp3"
            (Examples.chunk [Examples.start_file; Examples.end_file])
            (fresh_session Socket_new) =
    ({| observeSocket := Socket_destroy Socket_new; timeout := 1; started := true |},
     Throw (Thrown (errorMessage 0 "load()" (value [JString "song.mp3"])
                      undefined undefined))) /\
  load_message "load()" "song.mp3" (fresh_session Socket_new) Examples.file_loaded =
    (fresh_session Socket_new, Normal) /\
  load_deliveries "load()" "song.mp3"
                  (Examples.chunk [Examples.start_file]
                   :: repeat (Examples.chunk [Examples.pause_event]) 9)
                  (fresh_session Socket_new) =
    (Examples.started_after_ten, []) /\
  load_data "load()" "song.mp3" (Examples.chunk [Examples.file_loaded])
            Examples.started_after_ten =
    ({| observeSocket := {| destroyed := true; destroy_calls := 2; written := [] |};
        timeout := 11; started := true |},
     Throw (Thrown (errorMessage 5 "load()" (value [JString "song.mp3"])
                      undefined undefined))).
Proof.
  assert (Hstart : is_event "start-file" Examples.start_file = true)
    by (vm_compute; reflexivity).
  assert (Hload : is_event "file-loaded" Examples.file_loaded = true)
    by (vm_compute; reflexivity).
  assert (Hend : is_event "end-file" Examples.end_file = true)
    by (vm_compute; reflexivity).
  assert (Hreach : load_deliveries "load()" "song.mp3"
                     (Examples.chunk [Examples.start_file]
                      :: repeat (Examples.chunk [Examples.pause_event]) 9)
                     (fresh_session Socket_new) =
                   (Examples.started_after_ten, []))
    by (vm_compute; reflexivity).
  assert (Hfresh : timeout (fresh_session Socket_new) < 10) by (repeat constructor).
  destruct (load_replace_lifecycle "load()" "song.mp3" Socket_new 1%Z
              Examples.start_file Examples.file_loaded Examples.end_file
              Hstart Hload Hend)
    as (_ & _ & _ & _ & _ & Hbefore & _ & Hearly & Hended & _ & Hlate & _).
  split; [exact Hstart | ]. split; [exact Hload | ]. split; [exact Hend | ].
  split.
  { destruct (Hearly (fresh_session Socket_new)
                (Examples.chunk [Examples.start_file; Examples.file_loaded]) Hfresh)
      as (Hsuccess & _).
    exact (Hsuccess eq_refl). }
  split.
  { destruct (Hended (fresh_session Socket_new)
                (Examples.chunk [Examples.start_file; Examples.end_file]))
      as (Hfailed & _).
    exact (Hfailed eq_refl). }
  split; [apply Hbefore; reflexivity | ].
  split; [exact Hreach | ].
  destruct (Hlate Examples.started_after_ten (Examples.chunk [Examples.file_loaded])
              (le_n 10)) as (Htwice & _).
  exact (Htwice eq_refl eq_refl).
Defined.

(** The eleventh delivery of a started session brings file-loaded: the
    socket is destroyed twice and the Timeout error is thrown. *)
Example load_file_loaded_on_eleventh_delivery :
  load_data "load()" "song.mp3" (Examples.chunk [Examples.file_loaded])
            Examples.started_after_ten =
    ({| observeSocket := {| destroyed := true; destroy_calls := 2; written := [] |};
        timeout := 11; started := true |},
     Throw (Thrown (errorMessage 5 "load()" (value [JString "song.mp3"])
                      undefined undefined))).
Proof. vm_compute. reflexivity. Qed.

(** C5 fails on a cut-off message: the delivery that takes the counter to
    eleven throws at the message, the counter is never compared, and the
    socket stays open; twelve such deliveries leave the session waiting. *)
Lemma load_timeout_skipped :
  ~ Claims.eleventh_delivery_times_out "load()" "song.mp3"
      Examples.after_ten Examples.truncated /\
  load_data "load()" "song.mp3" Examples.truncated Examples.after_ten =
    ({| observeSocket := Socket_new; timeout := 11; started := false |},
     Throw SyntaxError) /\
  fst (load_deliveries "load()" "song.mp3" (repeat Examples.truncated 12)
                       (fresh_session Socket_new)) =
    {| observeSocket := Socket_new; timeout := 12; started := false |}.
Proof.
  assert (Hrun : load_data "load()" "song.mp3" Examples.truncated Examples.after_ten =
                 ({| observeSocket := Socket_new; timeout := 11; started := false |},
                  Throw SyntaxError)) by (vm_compute; reflexivity).
  split; [ | split; [exact Hrun | vm_compute; reflexivity]].
  intros Hclaim. destruct Hclaim as [Hthrow _].
  - apply le_n.
  - vm_compute. reflexivity.
  - rewrite Hrun in Hthrow. discriminate.
Qed.

(** C5, as the code has it, on a session that has seen ten deliveries and on
    eleven deliveries of a pause event. *)
Lemma load_poll_counter_witness :
  10 <= timeout Examples.after_ten /\
  timeout (fst (load_data "load()" "song.mp3" (Examples.chunk [Examples.pause_event])
                          Examples.after_ten)) = 11 /\
  snd (load_data "load()" "song.mp3" (Examples.chunk [Examples.pause_event])
                 Examples.after_ten) =
    Throw (Thrown (errorMessage 5 "load()" (value [JString "song.mp3"])
                     undefined undefined)) /\
  destroyed (observeSocket
               (fst (load_data "load()" "song.mp3" (Examples.chunk [Examples.pause_event])
                               Examples.after_ten))) = true /\
  destroyed (observeSocket
               (fst (load_deliveries "load()" "song.mp3"
                       (repeat (Examples.chunk [Examples.pause_event]) 11)
                       (fresh_session Socket_new)))) = true.
Proof.
  destruct (load_poll_counter "load()" "song.mp3" Socket_new)
    as (Hcount & Hexpire & Hbound & _).
  split; [apply le_n | ].
  split; [apply Hcount | ].
  destruct (Hexpire (Examples.chunk [Examples.pause_event]) Examples.after_ten)
    as [Hthrow Hdestroyed];
    [apply le_n | vm_compute; reflexivity | vm_compute; reflexivity | ].
  split; [exact Hthrow | ]. split; [exact Hdestroyed | ].
  apply Hbound.
  - repeat constructor.
  - simpl. lia.
Defined.

(** C6 on a playlist of three entries and on one of a single entry. *)
Lemma load_silent_success_witness :
  (1 < 3)%Z /\
  load_connected "append" (Fulfilled tt) (Fulfilled 3%Z) Socket_new =
    Returned (Socket_destroy Socket_new) /\
  load_connected "append-play" (Fulfilled tt) (Fulfilled 3%Z) Socket_new =
    Returned (Socket_destroy Socket_new) /\
  load_connected "append-play" (Fulfilled tt) (Fulfilled 1%Z) Socket_new =
    Listening (fresh_session Socket_new).
Proof.
  destruct (load_silent_success Socket_new 3%Z) as (Happend & Hplay & _ & Hone & _).
  split; [lia | ].
  split; [exact Happend | ].
  split; [apply Hplay; lia | exact Hone].
Defined.


(* ===================================================================== *)
(** ** The main connection: more of [ipcInterface.ts] *)
(* ===================================================================== *)

Lemma split_lines_aux_app (cur a b : string) :
  split_lines_aux cur (a ++ String "010"%char b) =
  split_lines_aux cur a ++ split_lines_aux "" b.
Proof.
  revert cur. induction a as [ | c a IH]; intros cur; simpl.
  - reflexivity.
  - destruct (Ascii.eqb c "010"%char); rewrite IH; reflexivity.
Qed.

Lemma forEach_app_any {S A E : Type} (f : S -> A -> S * Completion E)
      (before after : list A) (s : S) :
  forEach f (before ++ after) s =
  match forEach f before s with
  | (s1, Normal) => forEach f after s1
  | (s1, Throw e) => (s1, Throw e)
  end.
Proof.
  revert s. induction before as [ | x before IH]; intros s; simpl.
  - reflexivity.
  - destruct (f s x) as [s' [ | e]]; [apply IH | reflexivity].
Qed.

Section MainConnection.
Context {runtime : JSONRuntime}.

(** What one line can do to the instance: requests only leave the table,
    events are only added, and the socket, the console, the options and the
    allocation counter are not touched. *)
Lemma dataHandler_message_frame (this : ipcInterface) (message : string) :
  let this' := fst (dataHandler_message this message) in
  ipcRequests this' ⊆ ipcRequests this /\
  (exists more, emitted this' = emitted this ++ more) /\
  socket this' = socket this /\
  console this' = console this /\
  options this' = options this /\
  allocated this' = allocated this.
Proof.
  unfold dataHandler_message.
  destruct (Nat.ltb 0 (String.length message)).
  2: { simpl. repeat split; [reflexivity | exists []; symmetry; apply app_nil_r]. }
  destruct (JSON_parse message) as [JSONmessage | ].
  2: { simpl. repeat split; [reflexivity | exists []; symmetry; apply app_nil_r]. }
  destruct JSONmessage;
    repeat match goal with
           | |- context [if ?b then _ else _] => destruct b
           | |- context [ipcRequests ?t !! ?k] => destruct (ipcRequests t !! k)
           end;
    simpl; repeat split;
    try reflexivity;
    try (apply delete_subseteq);
    try (exists []; symmetry; apply app_nil_r);
    try (eexists; reflexivity).
Qed.

(** The same over any lines, up to the first that throws. *)
Lemma forEach_dataHandler_message_frame (messages : list string) (this : ipcInterface) :
  let this' := fst (forEach dataHandler_message messages this) in
  ipcRequests this' ⊆ ipcRequests this /\
  (exists more, emitted this' = emitted this ++ more) /\
  socket this' = socket this /\
  console this' = console this /\
  options this' = options this /\
  allocated this' = allocated this.
Proof.
  revert this.
  induction messages as [ | message messages IH]; intros this; simpl.
  - repeat split; [reflexivity | exists []; symmetry; apply app_nil_r].
  - pose proof (dataHandler_message_frame this message) as Hstep.
    destruct (dataHandler_message this message) as [this1 [ | e]]; simpl in Hstep.
    + destruct Hstep as (Ht & [m1 He] & Hs & Hc & Ho & Ha).
      destruct (IH this1) as (Ht' & [m2 He'] & Hs' & Hc' & Ho' & Ha').
      repeat split; try congruence.
      * etransitivity; eassumption.
      * exists (m1 ++ m2). rewrite He', He, app_assoc. reflexivity.
    + exact Hstep.
Qed.

(** X1.  Whatever a chunk contains, and whether or not its processing
    throws, [dataHandler] registers no request (every request in the table
    afterwards was there before, unchanged), takes back no emitted event,
    writes nothing to the socket and leaves the console, the options and the
    allocation counter alone. *)
Theorem dataHandler_frame (data : string) (this : ipcInterface) :
  let this' := fst (dataHandler data this) in
  ipcRequests this' ⊆ ipcRequests this /\
  (exists more, emitted this' = emitted this ++ more) /\
  socket this' = socket this /\
  console this' = console this /\
  options this' = options this /\
  allocated this' = allocated this.
Proof. unfold dataHandler. apply forEach_dataHandler_message_frame. Qed.

Lemma dataHandler_message_notification (this : ipcInterface) (message : string) :
  is_notification message = true ->
  dataHandler_message this message =
    (match parsed [message] with
     | [JSONmessage] => emit_message JSONmessage this
     | _ => this
     end, Normal).
Proof.
  unfold is_notification, parsed, dataHandler_message.
  destruct message as [ | c message]; [reflexivity | ].
  cbn [String.length Nat.ltb Nat.leb flat_map].
  destruct (JSON_parse (String c message)) as [JSONmessage | ]; [ | discriminate].
  destruct JSONmessage; try discriminate; intros Hfalsy;
    apply negb_true_iff in Hfalsy; rewrite Hfalsy; reflexivity.
Qed.

Lemma parsed_cons (message : string) (messages : list string) :
  parsed (message :: messages) = parsed [message] ++ parsed messages.
Proof. unfold parsed. simpl. rewrite app_nil_r. reflexivity. Qed.

(** X2.  A chunk whose lines are all empty or events (values other than
    null whose request_id is missing, null, false, zero or the empty
    string) is processed to its end: the events are emitted in the order of
    arrival, each once, and no request is completed or removed. *)
Theorem dataHandler_emits_in_order (data : string) (this : ipcInterface) :
  forallb is_notification (split_lines data) = true ->
  let this' := fst (dataHandler data this) in
  snd (dataHandler data this) = Normal /\
  emitted this' = emitted this ++ parsed (split_lines data) /\
  ipcRequests this' = ipcRequests this /\
  outcomes this' = outcomes this.
Proof.
  unfold dataHandler. generalize (split_lines data) as messages.
  intros messages. revert this.
  induction messages as [ | message messages IH]; intros this Hall.
  - simpl. repeat split. symmetry. apply app_nil_r.
  - cbn [forallb] in Hall. apply andb_true_iff in Hall. destruct Hall as [Hm Hrest].
    cbn [forEach]. rewrite (dataHandler_message_notification this message Hm).
    rewrite (parsed_cons message messages).
    specialize (IH (match parsed [message] with
                    | [JSONmessage] => emit_message JSONmessage this
                    | _ => this
                    end) Hrest).
    cbv zeta in IH |- *. destruct IH as (Hn & He & Ht & Ho).
    assert (Hone : parsed [message] = [] \/ exists v, parsed [message] = [v]).
    { unfold parsed. simpl. destruct message; [left; reflexivity | ].
      destruct (JSON_parse _); [right; eexists; reflexivity | left; reflexivity]. }
    destruct Hone as [Hnone | [v Hv]].
    + rewrite Hnone in *. simpl. repeat split; assumption.
    + rewrite Hv in *. simpl in *. repeat split; try assumption.
      rewrite He. rewrite <- app_assoc. reflexivity.
Qed.

(** X3.  A chunk made of two parts joined by a line feed does what the two
    parts do as chunks of their own, one after the other; when the first
    part throws, the second is not processed. *)
Theorem dataHandler_line_feed (a b : string) (this : ipcInterface) :
  dataHandler (a ++ LF ++ b) this =
  match dataHandler a this with
  | (this1, Normal) => dataHandler b this1
  | (this1, Throw e) => (this1, Throw e)
  end.
Proof.
  unfold dataHandler, split_lines.
  change (LF ++ b)%string with (String "010"%char b).
  rewrite split_lines_aux_app. apply forEach_app_any.
Qed.

End MainConnection.

Section Facade.
Context {runtime : JSONRuntime}.

(** X4.  On an open socket whose write succeeds, each operation of the
    facade writes exactly one line: the serialised object whose command
    member is the fixed verb, then the property, then the value, and whose
    request_id is the fresh identifier, followed by a line feed.  The
    generic command writes its name followed by its arguments. *)
Theorem facade_wire_format (env : SendEnv) (this : ipcInterface)
        (property name : string) (v : JSON) (n : Z) (args : list JSON) :
  destroyed (socket this) = false ->
  write_throws env = false ->
  let line command :=
    (JSON_stringify (JObject [("command", JArray command);
                              ("request_id", JString (cuid env))]) ++ LF)%string in
  let wrote (r : ipcInterface * Completion ErrorObject) command :=
    snd r = Normal /\ written (socket (fst r)) = written (socket this) ++ [line command] in
  wrote (setProperty env property v this)
        [JString "set_property"; JString property; v] /\
  wrote (addProperty env property n this)
        [JString "add"; JString property; JNumber n] /\
  wrote (multiplyProperty env property n this)
        [JString "multiply"; JString property; JNumber n] /\
  wrote (getProperty env property this)
        [JString "get_property"; JString property] /\
  wrote (cycleProperty env property this)
        [JString "cycle"; JString property] /\
  wrote (command env name (value args) this) (JString name :: args).
Proof.
  intros Hopen Hwrite line wrote. subst wrote line.
  unfold setProperty, addProperty, multiplyProperty, getProperty, cycleProperty,
    command, send.
  rewrite Hopen, Hwrite. simpl. repeat split.
Qed.

(** X5.  After [quit], every operation of the facade is rejected and
    changes nothing: no line is written and no request is registered.  The
    rejection is error 8, "MPV is not running", naming the caller, when
    [getCaller] finds a frame on the stack, and the TypeError of [getCaller]
    when it finds none.  [quit] itself leaves the table of requests and the
    lines written as they are. *)
Theorem facade_after_quit (env : SendEnv) (this : ipcInterface)
        (property name : string) (v : JSON) (n : Z) (args : Optional (list JSON)) :
  let this' := quit this in
  let rejection :=
    match Util.getCaller (stack env) with
    | Some caller => Throw (Thrown (errorMessage 8 caller undefined undefined undefined))
    | None => Throw TypeError
    end in
  let rejected (r : ipcInterface * Completion ErrorObject) := r = (this', rejection) in
  rejected (setProperty env property v this') /\
  rejected (addProperty env property n this') /\
  rejected (multiplyProperty env property n this') /\
  rejected (getProperty env property this') /\
  rejected (cycleProperty env property this') /\
  rejected (command env name args this') /\
  rejection <> Normal /\
  destroyed (socket this') = true /\
  ipcRequests this' = ipcRequests this /\
  written (socket this') = written (socket this) /\
  (forall caller,
      verbose (errorMessage 8 caller undefined undefined undefined) =
        Some "MPV is not running").
Proof.
  cbv zeta.
  unfold setProperty, addProperty, multiplyProperty, getProperty, cycleProperty,
    command, send, quit. cbn [socket set_socket destroyed Socket_destroy].
  destruct (Util.getCaller (stack env)) as [caller | ]; repeat split; discriminate.
Qed.

End Facade.

(** A table lookup of the error codes. *)
Lemma messageDict_get_defined (errorCode : nat) :
  is_Some (messageDict_get messageDict errorCode) <-> errorCode <= 8.
Proof.
  split.
  - intros [text Htext].
    do 9 (destruct errorCode as [ | errorCode]; [lia | ]).
    discriminate.
  - intros Hle.
    do 9 (destruct errorCode as [ | errorCode]; [eexists; reflexivity | ]).
    lia.
Qed.

(** X6.  The error object has a verbose text exactly for the codes 0 to 8;
    for any other code the text is undefined.  The code, the method, the
    arguments, the message and the options are the ones passed in. *)
Theorem errorMessage_verbose (errorCode : nat) (method : string)
        (args : Optional (list JSON)) (message : Optional string)
        (opts : Optional (list (string * string))) :
  let error := errorMessage errorCode method args message opts in
  (is_Some (verbose error) <-> errorCode <= 8) /\
  (8 < errorCode -> verbose error = None) /\
  errcode error = errorCode /\
  ErrorHandler.method error = method /\
  arguments error = args /\
  errmessage error = message /\
  ErrorHandler.options error = opts.
Proof.
  cbv zeta. unfold errorMessage.
  cbn [verbose errcode ErrorHandler.method arguments errmessage ErrorHandler.options].
  split; [apply messageDict_get_defined | ].
  split; [ | repeat split].
  intros Hbig. destruct (messageDict_get messageDict errorCode) eqn:Hget; [ | reflexivity].
  assert (Hsome : is_Some (messageDict_get messageDict errorCode)) by (eexists; exact Hget).
  apply messageDict_get_defined in Hsome. lia.
Qed.

(* ===================================================================== *)
(** ** The table of requests along a history *)
(* ===================================================================== *)

Section Histories.
Context {runtime : JSONRuntime}.

(** The request under [id] was registered by a [send] of [ops] whose write
    threw. *)
Local Abbreviation left_by ops id :=
  (exists env command,
      In (History.CallSend env command) ops /\
      write_throws env = true /\ cuid env = id).

Lemma apply_operation_requests (this : ipcInterface) (op : History.Operation) (id : string) :
  is_Some (ipcRequests (History.apply_operation this op) !! id) ->
  is_Some (ipcRequests this !! id) \/ left_by [op] id.
Proof.
  destruct op as [env command | write_throws command | | data | | error];
    cbn [History.apply_operation].
  - unfold send. destruct (destroyed (socket this));
      [destruct (Util.getCaller (stack env)); left; assumption | ].
    destruct (write_throws env) eqn:Hthrows; simpl.
    + intros Hid. destruct (decide (cuid env = id)) as [Heq | Hne].
      * right. exists env, command. split; [left; reflexivity | ]. split; assumption.
      * left. rewrite lookup_insert_ne in Hid by exact Hne. exact Hid.
    + intros Hid. left. rewrite delete_insert_eq in Hid.
      destruct (decide (cuid env = id)) as [Heq | Hne].
      * subst id. rewrite lookup_delete_eq in Hid. destruct Hid as [r Hr]. discriminate.
      * rewrite lookup_delete_ne in Hid by exact Hne. exact Hid.
  - unfold freeCommand. destruct write_throws; left; assumption.
  - left. assumption.
  - intros Hid. left.
    destruct (forEach_dataHandler_message_frame (split_lines data) this) as (Hsub & _).
    destruct Hid as [r Hr]. exists r.
    apply (lookup_weaken _ _ _ _ Hr Hsub).
  - unfold closeHandler. destruct (debug (options this)); left; assumption.
  - unfold errHandler. destruct (debug (options this)); left; assumption.
Qed.

Lemma history_requests (ops seen : list History.Operation) (this : ipcInterface) :
  (forall id, is_Some (ipcRequests this !! id) -> left_by seen id) ->
  forall id, is_Some (ipcRequests (History.history ops this) !! id) ->
             left_by (seen ++ ops) id.
Proof.
  revert seen this. induction ops as [ | op ops IH]; intros seen this Hthis id Hid.
  - rewrite app_nil_r. apply Hthis. exact Hid.
  - replace (seen ++ op :: ops) with ((seen ++ [op]) ++ ops)
      by (rewrite <- app_assoc; reflexivity).
    apply (IH (seen ++ [op]) (History.apply_operation this op)); [ | exact Hid].
    intros id' Hid'.
    destruct (apply_operation_requests this op id' Hid') as [Hold | (env & command & Hin & Hw & Hc)].
    + destruct (Hthis id' Hold) as (env & command & Hin & Hw & Hc).
      exists env, command. split; [apply in_or_app; left; exact Hin | ]. split; assumption.
    + exists env, command. split; [apply in_or_app; right; exact Hin | ]. split; assumption.
Qed.

(** X7.  At every point of every history of an instance, from its
    construction on, a request is in the table only if a [send] of the
    history registered it under that identifier and its write threw.  So as
    long as every write succeeds the table is empty, and every response
    that carries a request_id finds no request: a chunk with such a line
    throws a TypeError at it. *)
Theorem requests_only_from_failed_writes (ops : list History.Operation)
        (options : ipcOptions) :
  let this := History.history ops (constructor options) in
  (forall id,
      is_Some (ipcRequests this !! id) ->
      exists env command,
        In (History.CallSend env command) ops /\
        write_throws env = true /\ cuid env = id) /\
  (forallb History.write_succeeds ops = true ->
   ipcRequests this = ∅ /\
   forall message JSONmessage,
     message <> "" ->
     JSON_parse message = Some JSONmessage ->
     truthy (prop JSONmessage "request_id") = true ->
     dataHandler_message this message = (this, Throw TypeError)).
Proof.
  intros this.
  assert (Hleft : forall id, is_Some (ipcRequests this !! id) -> left_by ops id).
  { intros id Hid.
    apply (history_requests ops [] (constructor options)); [ | exact Hid].
    intros id' [r Hr]. simpl in Hr. rewrite lookup_empty in Hr. discriminate. }
  split; [exact Hleft | ].
  intros Hwrites.
  assert (Hempty : ipcRequests this = ∅).
  { apply map_empty. intros id.
    destruct (ipcRequests this !! id) as [r | ] eqn:Hr; [ | reflexivity].
    destruct (Hleft id) as (env & command & Hin & Hw & _); [eexists; exact Hr | ].
    rewrite forallb_forall in Hwrites. specialize (Hwrites _ Hin).
    simpl in Hwrites. rewrite Hw in Hwrites. discriminate. }
  split; [exact Hempty | ].
  intros message JSONmessage Hne Hparse Hid.
  apply dataHandler_message_unmatched with (JSONmessage := JSONmessage); auto.
  rewrite Hempty. apply lookup_empty.
Qed.

(** X8.  [freeCommand] never rejects and registers nothing, whether or
    not its write throws: on success the text and a line feed are written
    as they are, on failure one line with the text and the socket path is
    logged.  [errHandler] changes nothing without the debug option, and
    with it only logs the error. *)
Theorem freeCommand_unregistered (text : string) (error : JSON) (this : ipcInterface) :
  (forall write_throws,
      let this' := freeCommand write_throws text this in
      ipcRequests this' = ipcRequests this /\
      allocated this' = allocated this /\
      emitted this' = emitted this /\
      destroyed (socket this') = destroyed (socket this)) /\
  written (socket (freeCommand false text this)) =
    written (socket this) ++ [(text ++ LF)%string] /\
  console (freeCommand false text this) = console this /\
  written (socket (freeCommand true text this)) = written (socket this) /\
  console (freeCommand true text this) =
    console this ++ [LogNotRunning text (socket_path (options this))] /\
  (debug (options this) = false -> errHandler error this = this) /\
  (debug (options this) = true ->
   errHandler error this = console_log (LogError error) this /\
   socket (errHandler error this) = socket this /\
   ipcRequests (errHandler error this) = ipcRequests this).
Proof.
  split; [intros [ | ]; repeat split | ].
  split; [reflexivity | ]. split; [reflexivity | ].
  split; [reflexivity | ]. split; [reflexivity | ].
  unfold errHandler. split; intros Hdebug; rewrite Hdebug; repeat split.
Qed.

End Histories.

(* ===================================================================== *)
(** ** The load session: more of the data listener *)
(* ===================================================================== *)

Section Listener.
Context {runtime : JSONRuntime}.
Variables caller file : string.

(** What one message can do to the session. *)
Lemma load_message_cases (s : LoadSession) (m : string) :
  let r := load_message caller file s m in
  timeout (fst r) = timeout s /\
  (started s = true -> started (fst r) = true) /\
  (started (fst r) = true -> started s = true \/ is_event "start-file" m = true) /\
  (forall e, snd r = Throw (Thrown e) ->
             destroyed (observeSocket (fst r)) = true /\
             e = errorMessage 0 caller (value [JString file]) undefined undefined) /\
  (well_formed m = true ->
   is_event "start-file" m = false ->
   terminal_event m = false ->
   r = (s, Normal)).
Proof.
  unfold well_formed, terminal_event, is_event, load_message.
  destruct m as [ | c m].
  { simpl. repeat split; try tauto; try discriminate. }
  cbn [String.length Nat.ltb Nat.leb String.eqb negb andb].
  destruct (JSON_parse (String c m)) as [message | ].
  2: { simpl. repeat split; try tauto; try discriminate. }
  destruct s as [sock n st].
  destruct message; cbn [prop];
    repeat match goal with
           | |- context [truthy ?v] => destruct (truthy v)
           | |- context [strict_eq_string ?v ?n] => destruct (strict_eq_string v n)
           end;
    destruct st; simpl; repeat split; intros;
    try discriminate; try tauto; try congruence;
    match goal with
    | H : Throw _ = Throw _ |- _ => inversion H; reflexivity
    end.
Qed.

Lemma forEach_load_message_cases (ms : list string) (s : LoadSession) :
  let r := forEach (load_message caller file) ms s in
  timeout (fst r) = timeout s /\
  (started s = true -> started (fst r) = true) /\
  (started (fst r) = true ->
   started s = true \/ existsb (is_event "start-file") ms = true) /\
  (forall e, snd r = Throw (Thrown e) ->
             destroyed (observeSocket (fst r)) = true /\
             e = errorMessage 0 caller (value [JString file]) undefined undefined) /\
  (forallb (fun m => well_formed m && negb (is_event "start-file" m)
                     && negb (terminal_event m)) ms = true ->
   r = (s, Normal)).
Proof.
  revert s. induction ms as [ | m ms IH]; intros s; cbv zeta.
  - simpl. repeat split; try tauto; try discriminate.
  - cbn [forEach existsb forallb].
    destruct (load_message_cases s m) as (Ht & Hkeep & Hfrom & Hthrow & Hquiet).
    destruct (load_message caller file s m) as [s1 [ | x]] eqn:Hstep; simpl in *.
    + destruct (IH s1) as (Ht' & Hkeep' & Hfrom' & Hthrow' & Hquiet').
      split; [congruence | ]. split; [auto | ]. split; [ | split].
      * intros Hst. destruct (Hfrom' Hst) as [H1 | Hex].
        -- destruct (Hfrom H1) as [H0 | Hm]; [left; exact H0 | right; rewrite Hm; reflexivity].
        -- right. rewrite Hex. apply orb_true_r.
      * exact Hthrow'.
      * intros Hall. apply andb_true_iff in Hall. destruct Hall as [Hm Hrest].
        apply andb_true_iff in Hm. destruct Hm as [Hm Hnt].
        apply andb_true_iff in Hm. destruct Hm as [Hwf Hns].
        apply negb_true_iff in Hnt, Hns.
        specialize (Hquiet Hwf Hns Hnt). inversion Hquiet; subst s1.
        apply Hquiet'. exact Hrest.
    + split; [exact Ht | ]. split; [exact Hkeep | ]. split; [ | split].
      * intros Hst. destruct (Hfrom Hst) as [H0 | Hm];
          [left; exact H0 | right; rewrite Hm; reflexivity].
      * exact Hthrow.
      * intros Hall. apply andb_true_iff in Hall. destruct Hall as [Hm Hrest].
        apply andb_true_iff in Hm. destruct Hm as [Hm Hnt].
        apply andb_true_iff in Hm. destruct Hm as [Hwf Hns].
        apply negb_true_iff in Hnt, Hns.
        specialize (Hquiet Hwf Hns Hnt). discriminate.
Qed.

(** X9.  Whenever the data listener throws an error object, the observation
    socket has been destroyed, and the object is error 0 (a file that ended
    after its start) or error 5; error 5 is thrown only by a delivery that
    takes the counter above ten, so never by one of the first ten. *)
Theorem load_data_thrown (data : string) (s : LoadSession) (e : ErrorObject) :
  snd (load_data caller file data s) = Throw (Thrown e) ->
  destroyed (observeSocket (fst (load_data caller file data s))) = true /\
  (e = errorMessage 0 caller (value [JString file]) undefined undefined \/
   e = errorMessage 5 caller (value [JString file]) undefined undefined /\
   10 <= timeout s) /\
  (timeout s < 10 -> errcode e = 0).
Proof.
  unfold load_data.
  destruct (forEach_load_message_cases (split_lines data)
              (set_timeout (timeout s + 1) s)) as (Ht & _ & _ & Hthrow & _).
  destruct (forEach (load_message caller file) (split_lines data)
              (set_timeout (timeout s + 1) s)) as [s1 [ | x]]; simpl in *.
  - destruct (Nat.ltb 10 (timeout s1)) eqn:Hover; simpl; [ | discriminate].
    intros He. inversion He; subst e. apply Nat.ltb_lt in Hover.
    split; [reflexivity | ]. split; [right; split; [reflexivity | lia] | ].
    intros Hearly. lia.
  - intros He. destruct (Hthrow e He) as [Hd Herr].
    split; [exact Hd | ]. split; [left; exact Herr | ].
    intros _. rewrite Herr. reflexivity.
Qed.

(** X10.  A delivery among the first ten whose messages are all well-formed
    and none of which is start-file, file-loaded or end-file changes nothing
    but the counter: the session keeps waiting with its socket open, whatever
    other events the player sent. *)
Theorem load_data_other_events (data : string) (s : LoadSession) :
  timeout s < 10 ->
  forallb (fun m => well_formed m && negb (is_event "start-file" m)
                    && negb (terminal_event m)) (split_lines data) = true ->
  load_data caller file data s = (set_timeout (timeout s + 1) s, Normal).
Proof.
  intros Hearly Hquiet. unfold load_data.
  destruct (forEach_load_message_cases (split_lines data)
              (set_timeout (timeout s + 1) s)) as (_ & _ & _ & _ & Hsame).
  rewrite (Hsame Hquiet). simpl.
  assert (Hin : Nat.ltb 10 (timeout s + 1) = false) by (apply Nat.ltb_ge; lia).
  rewrite Hin. reflexivity.
Qed.

(** X11.  The start of the file is never forgotten, and only a start-file
    event records it: a session that has started stays started through any
    delivery, and a session that comes out of a delivery started either was
    so before or found a start-file event in that delivery. *)
Theorem load_data_started (data : string) (s : LoadSession) :
  let s' := fst (load_data caller file data s) in
  (started s = true -> started s' = true) /\
  (started s' = true ->
   started s = true \/ existsb (is_event "start-file") (split_lines data) = true).
Proof.
  unfold load_data.
  destruct (forEach_load_message_cases (split_lines data)
              (set_timeout (timeout s + 1) s)) as (_ & Hkeep & Hfrom & _ & _).
  destruct (forEach (load_message caller file) (split_lines data)
              (set_timeout (timeout s + 1) s)) as [s1 [ | x]]; simpl in *.
  - destruct (Nat.ltb 10 (timeout s1)); simpl; split; assumption.
  - split; assumption.
Qed.

End Listener.

(** X12.  When the load command or the playlist query is rejected, the
    callback ends there in every mode, append included: the observation
    socket is neither destroyed nor listened on. *)
Theorem load_connected_rejected (mode : string) (reason : Exception ErrorObject)
        (playlistSize : Awaited Z) (observeSocket : Socket) :
  load_connected mode (Rejected reason) playlistSize observeSocket =
    AwaitThrew observeSocket reason /\
  load_connected mode (Fulfilled tt) (Rejected reason) observeSocket =
    AwaitThrew observeSocket reason /\
  (forall loadfile size,
      (loadfile = Rejected reason \/ size = Rejected reason) ->
      forall s, load_connected mode loadfile size observeSocket <> Listening s /\
                load_connected mode loadfile size observeSocket <>
                  Returned (Socket_destroy observeSocket)).
Proof.
  split; [reflexivity | ]. split; [reflexivity | ].
  intros loadfile size Hrej s. unfold load_connected.
  destruct loadfile as [[] | r1]; [ | split; discriminate].
  destruct Hrej as [Hl | Hs]; [discriminate | ]. subst size. split; discriminate.
Qed.

(* ===================================================================== *)
(** ** lib/util.ts: the arguments and the options *)
(* ===================================================================== *)

Lemma existsb_eqb_In (x : string) (l : list string) :
  existsb (String.eqb x) l = true <-> In x l.
Proof.
  rewrite existsb_exists. split.
  - intros [y [Hy Heq]]. apply String.eqb_eq in Heq. subst y. exact Hy.
  - intros Hx. exists x. split; [exact Hx | apply String.eqb_refl].
Qed.

Lemma unique_from_In (seen l : list string) (x : string) :
  In x (Util.unique_from seen l) <-> In x l /\ ~ In x seen.
Proof.
  revert seen. induction l as [ | y l IH]; intros seen; simpl.
  - tauto.
  - destruct (existsb (String.eqb y) seen) eqn:Hseen.
    + apply existsb_eqb_In in Hseen. rewrite IH. split.
      * intros [Hl Hn]. split; [right; exact Hl | exact Hn].
      * intros [[Hy | Hl] Hn]; [subst y; contradiction | split; assumption].
    + assert (Hnot : ~ In y seen).
      { intros Hy. apply existsb_eqb_In in Hy. congruence. }
      simpl. rewrite IH. simpl. split.
      * intros [Hy | [Hl Hn]].
        -- subst y. split; [left; reflexivity | exact Hnot].
        -- split; [right; exact Hl | tauto].
      * intros [[Hy | Hl] Hn].
        -- left. exact Hy.
        -- destruct (String.eqb y x) eqn:Hyx.
           ++ apply String.eqb_eq in Hyx. left. exact Hyx.
           ++ apply String.eqb_neq in Hyx. right. split; [exact Hl | ].
              intros [Heq | Hin]; [congruence | contradiction].
Qed.

Lemma unique_from_NoDup (seen l : list string) : List.NoDup (Util.unique_from seen l).
Proof.
  revert seen. induction l as [ | y l IH]; intros seen; simpl.
  - constructor.
  - destruct (existsb (String.eqb y) seen); [apply IH | ].
    constructor; [ | apply IH].
    rewrite unique_from_In. simpl. tauto.
Qed.

(** A list without repetition whose elements have not been seen comes out
    as it is, ahead of the rest. *)
Lemma unique_from_prefix (seen l rest : list string) :
  List.NoDup l ->
  (forall x, In x l -> ~ In x seen) ->
  Util.unique_from seen (l ++ rest) = l ++ Util.unique_from (rev l ++ seen) rest.
Proof.
  revert seen. induction l as [ | y l IH]; intros seen Hnd Hfresh; simpl.
  - reflexivity.
  - inversion Hnd as [ | ? ? Hy Hl]; subst.
    destruct (existsb (String.eqb y) seen) eqn:Hseen.
    + apply existsb_eqb_In in Hseen. exfalso. apply (Hfresh y); [left; reflexivity | exact Hseen].
    + f_equal. rewrite IH.
      * rewrite <- app_assoc. reflexivity.
      * exact Hl.
      * intros x Hx [Heq | Hin]; [subst x; contradiction | ].
        apply (Hfresh x); [right; exact Hx | exact Hin].
Qed.

Lemma unique_from_kept (seen l : list string) :
  List.NoDup l ->
  (forall x, In x l -> ~ In x seen) ->
  Util.unique_from seen l = l.
Proof.
  intros Hnd Hfresh.
  rewrite <- (app_nil_r l) at 1. rewrite unique_from_prefix; [ | exact Hnd | exact Hfresh].
  simpl. apply app_nil_r.
Qed.

Lemma unique_from_seen (seen l rest : list string) :
  (forall x, In x l -> In x seen) ->
  Util.unique_from seen (l ++ rest) = Util.unique_from seen rest.
Proof.
  induction l as [ | y l IH]; intros Hall; simpl; [reflexivity | ].
  assert (Hy : existsb (String.eqb y) seen = true)
    by (apply existsb_eqb_In; apply Hall; left; reflexivity).
  rewrite Hy. apply IH. intros x Hx. apply Hall. right. exact Hx.
Qed.

(** Only the members of [seen] matter. *)
Lemma unique_from_ext (seen seen' l : list string) :
  (forall x, In x seen <-> In x seen') ->
  Util.unique_from seen l = Util.unique_from seen' l.
Proof.
  revert seen seen'. induction l as [ | y l IH]; intros seen seen' Hsame; simpl.
  - reflexivity.
  - assert (Hy : existsb (String.eqb y) seen = existsb (String.eqb y) seen').
    { destruct (existsb (String.eqb y) seen') eqn:Hseen'.
      - apply existsb_eqb_In. apply Hsame. apply existsb_eqb_In. exact Hseen'.
      - destruct (existsb (String.eqb y) seen) eqn:Hseen; [ | reflexivity].
        apply existsb_eqb_In in Hseen. apply Hsame in Hseen.
        apply existsb_eqb_In in Hseen. congruence. }
    rewrite Hy. destruct (existsb (String.eqb y) seen').
    + apply IH. exact Hsame.
    + f_equal. apply IH. intros x. simpl. rewrite (Hsame x). tauto.
Qed.

(** The list is gone through from left to right: what a prefix gives
    stays, and the rest is compared with the prefix too. *)
Lemma unique_from_app (seen l1 l2 : list string) :
  Util.unique_from seen (l1 ++ l2) =
  Util.unique_from seen l1 ++ Util.unique_from (rev l1 ++ seen) l2.
Proof.
  revert seen. induction l1 as [ | y l1 IH]; intros seen; simpl.
  - reflexivity.
  - destruct (existsb (String.eqb y) seen) eqn:Hseen.
    + rewrite IH. f_equal. apply unique_from_ext.
      apply existsb_eqb_In in Hseen.
      intros x. rewrite !in_app_iff. simpl. intuition (subst; auto).
    + simpl. f_equal. rewrite IH. f_equal.
      rewrite <- app_assoc. reflexivity.
Qed.

Lemma defaultArgs_NoDup (audio_only : bool) : List.NoDup (Util.mpvArguments audio_only None).
Proof.
  destruct audio_only; simpl;
    repeat (constructor; [simpl; intuition discriminate | ]); constructor.
Qed.

Lemma mpvArguments_shape (audio_only : bool) (l : list string) :
  Util.mpvArguments audio_only (Some l) =
  Util.mpvArguments audio_only None ++
  Util.unique_from (rev (Util.mpvArguments audio_only None)) l.
Proof.
  assert (Hshape : Util.mpvArguments audio_only (Some l) =
                   Util.unique (Util.mpvArguments audio_only None ++ l))
    by (destruct audio_only; reflexivity).
  rewrite Hshape. unfold Util.unique.
  rewrite unique_from_prefix;
    [ | apply defaultArgs_NoDup | intros x _ []].
  rewrite app_nil_r. reflexivity.
Qed.

(** X13.  With a list of user arguments, even an empty one, the arguments
    mpv is started with begin with the default ones in their order, go on
    with the user's in the order of their first occurrence, and hold no
    argument twice: a user argument that repeats a default or an earlier
    one is dropped.  The order is that of a pass from left to right: what
    the arguments before some position give is the beginning of the result,
    and the argument at the position comes right after it when it is
    neither a default nor among the arguments before it, and is left out
    otherwise.  Passing the result again as user arguments changes nothing.
    The defaults are three flags, and two more when only audio is played. *)
Theorem mpvArguments_unique (audio_only : bool) (userInputArguments : list string) :
  let defaults := Util.mpvArguments audio_only None in
  let args := Util.mpvArguments audio_only (Some userInputArguments) in
  List.NoDup args /\
  (forall x, In x args <-> In x defaults \/ In x userInputArguments) /\
  (exists added, args = defaults ++ added /\
                 forall x, In x added <-> In x userInputArguments /\ ~ In x defaults) /\
  (forall before x after,
      userInputArguments = before ++ x :: after ->
      Util.mpvArguments audio_only (Some (before ++ [x])) =
        Util.mpvArguments audio_only (Some before) ++
        (if in_dec string_dec x (defaults ++ before) then [] else [x]) /\
      exists rest,
        args = Util.mpvArguments audio_only (Some (before ++ [x])) ++ rest) /\
  Util.mpvArguments audio_only (Some args) = args /\
  defaults = [ "--idle"; "--really-quiet"; "--msg-level=ipc=v" ]
             ++ (if audio_only then [ "--no-video"; "--no-audio-display" ] else []).
Proof.
  cbv zeta.
  pose proof (defaultArgs_NoDup audio_only) as Hnd.
  pose proof (mpvArguments_shape audio_only) as Hshape.
  set (defaults := Util.mpvArguments audio_only None) in *.
  assert (Hmem : forall l x, In x (Util.unique_from (rev defaults) l) <->
                             In x l /\ ~ In x defaults).
  { intros l x. rewrite unique_from_In, <- in_rev. tauto. }
  assert (Hargs : List.NoDup (Util.mpvArguments audio_only (Some userInputArguments))).
  { assert (Hu : Util.mpvArguments audio_only (Some userInputArguments) =
                 Util.unique (defaults ++ userInputArguments))
      by (subst defaults; destruct audio_only; reflexivity).
    rewrite Hu. apply unique_from_NoDup. }
  split; [exact Hargs | ].
  split.
  { intros x. rewrite Hshape, in_app_iff, Hmem.
    destruct (in_dec string_dec x defaults); tauto. }
  split.
  { exists (Util.unique_from (rev defaults) userInputArguments).
    split; [apply Hshape | apply Hmem]. }
  split.
  { assert (Hgrow : forall l1 l2,
               Util.mpvArguments audio_only (Some (l1 ++ l2)) =
               Util.mpvArguments audio_only (Some l1) ++
               Util.unique_from (rev l1 ++ rev defaults) l2).
    { intros l1 l2. rewrite !Hshape, unique_from_app, app_assoc. reflexivity. }
    intros before x after Hsplit. split.
    - rewrite Hgrow. f_equal. simpl.
      destruct (in_dec string_dec x (defaults ++ before)) as [Hin | Hout].
      + assert (Hseen : existsb (String.eqb x) (rev before ++ rev defaults) = true).
        { apply existsb_eqb_In. rewrite in_app_iff, <- !in_rev.
          apply in_app_iff in Hin. tauto. }
        rewrite Hseen. reflexivity.
      + destruct (existsb (String.eqb x) (rev before ++ rev defaults)) eqn:Hseen;
          [ | reflexivity].
        apply existsb_eqb_In in Hseen. rewrite in_app_iff, <- !in_rev in Hseen.
        exfalso. apply Hout. apply in_app_iff. tauto.
    - exists (Util.unique_from (rev (before ++ [x]) ++ rev defaults) after).
      rewrite <- Hgrow, <- app_assoc. simpl. rewrite Hsplit. reflexivity. }
  split.
  { rewrite (Hshape (Util.mpvArguments audio_only (Some userInputArguments))).
    rewrite (Hshape userInputArguments) at 1 2.
    f_equal.
    rewrite unique_from_seen; [ | intros x Hx; apply in_rev in Hx; exact Hx].
    apply unique_from_kept.
    - apply unique_from_NoDup.
    - intros x Hx. apply unique_from_In in Hx. tauto. }
  subst defaults. destruct audio_only; reflexivity.
Qed.



(* ===================================================================== *)
(** ** lib/util.ts: formatOptions *)
(* ===================================================================== *)

Lemma set_member_union (key : string) (v : option string)
      (m1 m2 : gmap string (option string)) :
  Util.set_member key v (m1 ∪ m2) = Util.set_member key v m1 ∪ m2.
Proof.
  unfold Util.set_member. destruct (String.eqb key "__proto__"); [reflexivity | ].
  apply insert_union_l.
Qed.

Lemma set_member_proto (key : string) (v : option string)
      (m : gmap string (option string)) :
  m !! "__proto__" = None -> Util.set_member key v m !! "__proto__" = None.
Proof.
  intros Hm. unfold Util.set_member.
  destruct (String.eqb key "__proto__") eqn:Hkey; [exact Hm | ].
  apply String.eqb_neq in Hkey. rewrite lookup_insert_ne; [exact Hm | exact Hkey].
Qed.

Lemma formatOptions_step_union (m1 m2 : gmap string (option string)) (entry : string) :
  Util.formatOptions_step (m1 ∪ m2) entry = Util.formatOptions_step m1 entry ∪ m2.
Proof.
  unfold Util.formatOptions_step.
  destruct (nth_error (RegExp.split Util.option_regex entry) 0); apply set_member_union.
Qed.

Lemma fold_formatOptions_union (l : list string) (m1 m2 : gmap string (option string)) :
  fold_left Util.formatOptions_step l (m1 ∪ m2) =
  fold_left Util.formatOptions_step l m1 ∪ m2.
Proof.
  revert m1. induction l as [ | entry l IH]; intros m1; simpl; [reflexivity | ].
  rewrite formatOptions_step_union. apply IH.
Qed.

Lemma fold_formatOptions_proto (l : list string) (m : gmap string (option string)) :
  m !! "__proto__" = None ->
  fold_left Util.formatOptions_step l m !! "__proto__" = None.
Proof.
  revert m. induction l as [ | entry l IH]; intros m Hm; simpl; [exact Hm | ].
  apply IH. unfold Util.formatOptions_step.
  destruct (nth_error (RegExp.split Util.option_regex entry) 0);
    apply set_member_proto; exact Hm.
Qed.

(** X16.  The object made from a list of options is built option by
    option, a later option overriding an earlier one of the same key: the
    object of two lists one after the other is the object of the second
    laid over the object of the first, and the empty list gives the empty
    object.  No list of options defines the member __proto__.  [load]
    passes the object as the third argument of the loadfile command
    whenever a list is given, even an empty one. *)
Theorem formatOptions_compose (first second : list string) (file mode : string) :
  Util.formatOptions (first ++ second) =
    Util.formatOptions second ∪ Util.formatOptions first /\
  Util.formatOptions [] = ∅ /\
  Util.formatOptions (first ++ second) !! "__proto__" = None /\
  MpvClass.loadfile_arguments file mode (Some first) =
    [MpvClass.Plain (JString file); MpvClass.Plain (JString mode);
     MpvClass.OptionObject (Util.formatOptions first)] /\
  MpvClass.loadfile_arguments file mode (Some []) =
    [MpvClass.Plain (JString file); MpvClass.Plain (JString mode);
     MpvClass.OptionObject ∅] /\
  MpvClass.loadfile_arguments file mode None =
    [MpvClass.Plain (JString file); MpvClass.Plain (JString mode)].
Proof.
  unfold Util.formatOptions. split.
  - rewrite fold_left_app.
    set (made := fold_left Util.formatOptions_step first ∅).
    transitivity (fold_left Util.formatOptions_step second (∅ ∪ made)).
    + rewrite (left_id_L ∅ (∪)). reflexivity.
    + apply fold_formatOptions_union.
  - split; [reflexivity | ].
    split; [apply fold_formatOptions_proto; apply lookup_empty | ].
    repeat split.
Qed.

(* ===================================================================== *)
(** ** The matchers on runs of characters *)
(* ===================================================================== *)

#[local] Arguments String.append !s1 s2 : simpl nomatch.

Section Matchers.
Import RegExp.
Context {A : Type}.
Local Open Scope string_scope.

Lemma length_append (a b : string) :
  String.length (a ++ b) = String.length a + String.length b.
Proof. induction a as [ | c a IH]; simpl; [reflexivity | rewrite IH; reflexivity]. Qed.

Lemma append_assoc (a b c : string) : ((a ++ b) ++ c = a ++ (b ++ c))%string.
Proof. induction a as [ | x a IH]; simpl; [reflexivity | rewrite IH; reflexivity]. Qed.

Lemma append_empty (a : string) : (a ++ "" = a)%string.
Proof. induction a as [ | x a IH]; simpl; [reflexivity | rewrite IH; reflexivity]. Qed.

Lemma take_append (a b : string) : take (String.length a) (a ++ b) = a.
Proof. induction a as [ | c a IH]; simpl; [destruct b; reflexivity | rewrite IH; reflexivity]. Qed.

Lemma consumed_append (a rest : string) : consumed (a ++ rest) rest = a.
Proof.
  unfold consumed. rewrite length_append.
  replace (String.length a + String.length rest - String.length rest)
    with (String.length a) by lia.
  apply take_append.
Qed.

Lemma run_Literal (l t : string) (k : Continuation A) (captures : list string) :
  run (Literal l) k (l ++ t) captures = k t captures.
Proof.
  induction l as [ | c l IH]; simpl; [reflexivity | ].
  rewrite Ascii.eqb_refl. exact IH.
Qed.

(** The greedy star over one class, on a run of the class. *)
Lemma star_one (p : ascii -> bool) (k : Continuation A) (v rest : string)
      (fuel : nat) (captures : list string) :
  all_chars p v = true ->
  starts_with p rest = false ->
  String.length v <= fuel ->
  star (one p) k fuel (v ++ rest) captures = longest_first k v rest captures.
Proof.
  revert fuel. induction v as [ | c v IH]; intros fuel Hv Hrest Hfuel.
  - simpl. destruct fuel as [ | fuel]; [reflexivity | ].
    simpl. unfold one at 1. destruct rest as [ | c r]; [reflexivity | ].
    simpl in Hrest. rewrite Hrest. reflexivity.
  - simpl in Hv. apply andb_true_iff in Hv. destruct Hv as [Hc Hv].
    destruct fuel as [ | fuel]; [simpl in Hfuel; lia | ].
    simpl in Hfuel.
    change (String c v ++ rest)%string with (String c (v ++ rest)).
    cbn [star]. unfold one at 1. rewrite Hc.
    assert (Hlt : Nat.ltb (String.length (v ++ rest)) (String.length (String c (v ++ rest)))
                  = true) by (apply Nat.ltb_lt; simpl; lia).
    rewrite Hlt. rewrite IH; [ | exact Hv | exact Hrest | lia].
    reflexivity.
Qed.

Lemma longest_first_greedy (k : Continuation A) (v rest : string)
      (captures : list string) (a : A) :
  k rest captures = Some a -> longest_first k v rest captures = Some a.
Proof.
  intros Hk. induction v as [ | c v IH]; simpl; [exact Hk | rewrite IH; reflexivity].
Qed.

Lemma longest_first_last (k : Continuation A) (v : string) (x : ascii) (rest : string)
      (captures : list string) :
  longest_first k (v ++ String x "") rest captures =
  match k rest captures with
  | Some a => Some a
  | None => longest_first k v (String x rest) captures
  end.
Proof.
  induction v as [ | c v IH]; simpl.
  - reflexivity.
  - rewrite IH. destruct (k rest captures); [reflexivity | ].
    rewrite append_assoc. reflexivity.
Qed.

Lemma longest_first_none (k : Continuation A) (v rest : string) (captures : list string) :
  (forall v1 v2, v = (v1 ++ v2)%string -> k (v2 ++ rest)%string captures = None) ->
  longest_first k v rest captures = None.
Proof.
  induction v as [ | c v IH]; intros Hall; simpl.
  - apply (Hall "" ""). reflexivity.
  - rewrite IH.
    + apply (Hall "" (String c v)). reflexivity.
    + intros v1 v2 Hv. apply (Hall (String c v1) v2). simpl. rewrite Hv. reflexivity.
Qed.

End Matchers.

(* ===================================================================== *)
(** ** lib/util.ts: one option of formatOptions *)
(* ===================================================================== *)

Section OneOption.
Import RegExp.
Local Open Scope string_scope.

(** The two classes of characters the pattern of [formatOptions] tells
    apart: the characters other than the equals sign, and the characters
    the dot matches. *)
Local Abbreviation not_equals := (fun c : ascii => negb (Ascii.eqb "=" c)).
Local Abbreviation dot := (fun c : ascii => negb (is_line_terminator c)).

Lemma option_regex_other (c : ascii) (s : string) :
  not_equals c = true -> match_here Util.option_regex (String c s) = None.
Proof.
  intros Hc. apply negb_true_iff in Hc.
  unfold match_here, Util.option_regex. cbn [run]. unfold one at 1. rewrite Hc. reflexivity.
Qed.

Lemma option_regex_equals (v rest : string) :
  v <> "" ->
  all_chars dot v = true ->
  starts_with dot rest = false ->
  match_here Util.option_regex (String "=" (v ++ rest)) = Some ([v], rest).
Proof.
  intros Hne Hv Hrest. destruct v as [ | d v]; [congruence | ].
  simpl in Hv. apply andb_true_iff in Hv. destruct Hv as [Hd Hv].
  unfold match_here, Util.option_regex, Plus.
  cbn [run]. unfold one at 1. rewrite Ascii.eqb_refl.
  cbn [String.append]. unfold one at 1. rewrite Hd.
  rewrite star_one; [ | exact Hv | exact Hrest | rewrite length_append; lia].
  erewrite longest_first_greedy; [reflexivity | ].
  simpl. f_equal. f_equal.
  change (String d (v ++ rest)) with (String d v ++ rest).
  rewrite consumed_append. reflexivity.
Qed.

Lemma option_regex_equals_alone (rest : string) :
  starts_with dot rest = false ->
  match_here Util.option_regex (String "=" rest) = None.
Proof.
  intros Hrest. unfold match_here, Util.option_regex, Plus.
  cbn [run]. unfold one at 1. rewrite Ascii.eqb_refl.
  unfold one at 1. destruct rest as [ | c rest]; [reflexivity | ].
  simpl in Hrest. rewrite Hrest. reflexivity.
Qed.

Lemma split_from_skip (k t piece : string) (fuel : nat) :
  all_chars not_equals k = true ->
  split_from Util.option_regex (String.length k + fuel) piece (k ++ t) =
  split_from Util.option_regex fuel (piece ++ k) t.
Proof.
  revert piece. induction k as [ | c k IH]; intros piece Hk.
  - simpl. rewrite append_empty. reflexivity.
  - simpl in Hk. apply andb_true_iff in Hk. destruct Hk as [Hc Hk].
    cbn [String.length Nat.add String.append split_from].
    rewrite (option_regex_other c (k ++ t) Hc).
    rewrite IH; [ | exact Hk].
    rewrite append_assoc. reflexivity.
Qed.

Lemma split_from_rest (s piece : string) (fuel : nat) :
  all_chars not_equals s = true ->
  split_from Util.option_regex fuel piece s = [piece ++ s].
Proof.
  revert piece fuel. induction s as [ | c s IH]; intros piece fuel Hs.
  - destruct fuel; simpl; [ | rewrite append_empty]; reflexivity.
  - simpl in Hs. apply andb_true_iff in Hs. destruct Hs as [Hc Hs].
    destruct fuel as [ | fuel]; [reflexivity | ].
    cbn [split_from]. rewrite (option_regex_other c s Hc).
    rewrite IH by exact Hs. rewrite append_assoc. reflexivity.
Qed.

Lemma split_nonempty (r : Regex) (s : string) :
  s <> "" -> split r s = split_from r (2 * String.length s + 1) "" s.
Proof. destruct s; [congruence | reflexivity]. Qed.

(** The pieces of an option of the shape key=value. *)
Lemma split_assignment (k v rest : string) :
  all_chars not_equals k = true ->
  v <> "" ->
  all_chars dot v = true ->
  starts_with dot rest = false ->
  exists more, split Util.option_regex (k ++ "=" ++ v ++ rest) = k :: v :: more.
Proof.
  intros Hk Hne Hv Hrest.
  rewrite split_nonempty by (destruct k; discriminate).
  replace (2 * String.length (k ++ "=" ++ v ++ rest) + 1)
    with (String.length k + S (String.length k + 2 * String.length (v ++ rest) + 2))
    by (rewrite !length_append; simpl; lia).
  rewrite split_from_skip by exact Hk.
  cbn [String.append split_from].
  rewrite (option_regex_equals v rest Hne Hv Hrest).
  assert (Hshort : Nat.eqb (String.length rest) (String.length (String "=" (v ++ rest)))
                   = false).
  { apply Nat.eqb_neq. simpl. rewrite length_append. lia. }
  rewrite Hshort. simpl. eexists. reflexivity.
Qed.

(** The pieces of an option without an equals sign, or whose only equals
    sign has nothing after it on its line. *)
Lemma split_no_assignment (k rest : string) :
  all_chars not_equals k = true ->
  split Util.option_regex k = [k] /\
  (all_chars not_equals rest = true ->
   starts_with dot rest = false ->
   split Util.option_regex (k ++ "=" ++ rest) = [k ++ "=" ++ rest]).
Proof.
  intros Hk. split.
  - destruct k as [ | c k]; [reflexivity | ].
    rewrite split_nonempty by discriminate.
    rewrite split_from_rest by exact Hk. reflexivity.
  - intros Hr Hrest.
    rewrite split_nonempty by (destruct k; discriminate).
    replace (2 * String.length (k ++ "=" ++ rest) + 1)
      with (String.length k + S (String.length k + 2 * String.length rest + 2))
      by (rewrite !length_append; simpl; lia).
    rewrite split_from_skip by exact Hk.
    cbn [String.append split_from].
    rewrite (option_regex_equals_alone rest Hrest).
    rewrite split_from_rest by exact Hr.
    rewrite !append_assoc. reflexivity.
Qed.

(** X17.  An option written key=value, with no equals sign in the key and a
    value that is not empty, is split at its first equals sign: the member
    of that key gets the value up to the end of its line, later equals
    signs included, and replaces what an earlier option gave the key.  The
    key __proto__ alone is dropped. *)
Theorem formatOptions_assignment (key v rest : string) (earlier : list string) :
  all_chars (fun c => negb (Ascii.eqb "=" c)) key = true ->
  v <> "" ->
  all_chars (fun c => negb (is_line_terminator c)) v = true ->
  starts_with (fun c => negb (is_line_terminator c)) rest = false ->
  let entry := key ++ "=" ++ v ++ rest in
  (forall made, Util.formatOptions_step made entry = Util.set_member key (Some v) made) /\
  (key <> "__proto__" ->
   Util.formatOptions (earlier ++ [entry])%list !! key = Some (Some v) /\
   Util.formatOptions [entry] = {[ key := Some v ]}) /\
  (key = "__proto__" ->
   Util.formatOptions (earlier ++ [entry])%list = Util.formatOptions earlier).
Proof.
  intros Hk Hne Hv Hrest entry.
  assert (Hstep : forall made,
             Util.formatOptions_step made entry = Util.set_member key (Some v) made).
  { intros made. unfold Util.formatOptions_step. subst entry.
    destruct (split_assignment key v rest Hk Hne Hv Hrest) as [more Hsplit].
    rewrite Hsplit. reflexivity. }
  split; [exact Hstep | ].
  unfold Util.formatOptions. rewrite fold_left_app. cbn [fold_left]. rewrite !Hstep.
  unfold Util.set_member. split.
  - intros Hkey. apply String.eqb_neq in Hkey. rewrite Hkey.
    split; [apply lookup_insert_eq | reflexivity].
  - intros Hkey. subst key. reflexivity.
Qed.

(** X18.  An option without an equals sign defines the member named by the
    whole option, with the value undefined; so does an option whose equals
    sign is followed by nothing, or by a line break: the equals sign stays
    in the name. *)
Theorem formatOptions_no_value (key rest : string) (earlier : list string) :
  all_chars (fun c => negb (Ascii.eqb "=" c)) key = true ->
  all_chars (fun c => negb (Ascii.eqb "=" c)) rest = true ->
  starts_with (fun c => negb (is_line_terminator c)) rest = false ->
  (forall made, Util.formatOptions_step made key = Util.set_member key None made) /\
  (forall made, Util.formatOptions_step made (key ++ "=" ++ rest) =
                Util.set_member (key ++ "=" ++ rest) None made) /\
  (key <> "__proto__" ->
   Util.formatOptions (earlier ++ [key])%list !! key = Some None) /\
  Util.formatOptions (earlier ++ [(key ++ "=")%string])%list !! (key ++ "=") = Some None.
Proof.
  intros Hk Hr Hrest.
  destruct (split_no_assignment key rest Hk) as [Hwhole Hsign].
  specialize (Hsign Hr Hrest).
  destruct (split_no_assignment key "" Hk) as [_ Hbare].
  specialize (Hbare eq_refl eq_refl).
  change ("=" ++ "") with "=" in Hbare.
  assert (Hstep1 : forall made,
             Util.formatOptions_step made key = Util.set_member key None made).
  { intros made. unfold Util.formatOptions_step. rewrite Hwhole. reflexivity. }
  assert (Hstep2 : forall made,
             Util.formatOptions_step made (key ++ "=" ++ rest) =
             Util.set_member (key ++ "=" ++ rest) None made).
  { intros made. unfold Util.formatOptions_step. rewrite Hsign. reflexivity. }
  assert (Hstep3 : forall made,
             Util.formatOptions_step made (key ++ "=") =
             Util.set_member (key ++ "=") None made).
  { intros made. unfold Util.formatOptions_step. rewrite Hbare. reflexivity. }
  split; [exact Hstep1 | ]. split; [exact Hstep2 | ].
  unfold Util.formatOptions. rewrite !fold_left_app. cbn [fold_left].
  rewrite Hstep1, Hstep3. unfold Util.set_member. split.
  - intros Hkey. apply String.eqb_neq in Hkey. rewrite Hkey. apply lookup_insert_eq.
  - assert (Hnot : String.eqb (key ++ "=") "__proto__" = false).
    { apply String.eqb_neq. intros Heq.
      assert (Hall : all_chars (fun c => negb (Ascii.eqb "=" c)) (key ++ "=") = true)
        by (rewrite Heq; reflexivity).
      clear - Hall. induction key as [ | c key IH]; simpl in Hall; [discriminate | ].
      apply andb_true_iff in Hall. destruct Hall as [_ Hall]. exact (IH Hall). }
    rewrite Hnot. apply lookup_insert_eq.
Qed.

End OneOption.

(* ===================================================================== *)
(** ** lib/util.ts: findIPCCommand *)
(* ===================================================================== *)

Section VersionOutput.
Import RegExp.
Local Open Scope string_scope.

Lemma prefix_append (l t : string) : String.prefix l (l ++ t) = true.
Proof.
  induction l as [ | c l IH]; simpl.
  - destruct t; reflexivity.
  - destruct (ascii_dec c c); [exact IH | congruence].
Qed.

Lemma prefix_split (l s : string) :
  String.prefix l s = true -> exists t, s = l ++ t.
Proof.
  revert s. induction l as [ | c l IH]; intros s H.
  - exists s. reflexivity.
  - destruct s as [ | c' s]; simpl in H; [discriminate | ].
    destruct (ascii_dec c c') as [-> | ]; [ | discriminate].
    destruct (IH s H) as [t ->]. exists t. reflexivity.
Qed.

Lemma contains_eq (l s : string) :
  contains l s = String.prefix l s ||
                 match s with
                 | EmptyString => false
                 | String _ rest => contains l rest
                 end.
Proof. destruct s; reflexivity. Qed.

Lemma exec_from_eq (r : Regex) (pre s : string) :
  exec_from r pre s =
  match match_here r s with
  | Some (captures, rest) =>
      Some {| before := pre; matched := consumed s rest;
              groups := captures; after := rest |}
  | None =>
      match s with
      | String c rest => exec_from r (pre ++ String c "") rest
      | EmptyString => None
      end
  end.
Proof. destruct s; reflexivity. Qed.

Lemma run_Literal_inv {A : Type} (l s : string) (k : Continuation A)
      (captures : list string) (a : A) :
  run (Literal l) k s captures = Some a ->
  exists t, s = l ++ t /\ k t captures = Some a.
Proof.
  revert s. induction l as [ | c l IH]; intros s H; cbn [Literal run] in H.
  - exists s. split; [reflexivity | exact H].
  - unfold one in H. destruct s as [ | c' s]; [discriminate | ].
    destruct (Ascii.eqb c c') eqn:E; [ | discriminate].
    apply Ascii.eqb_eq in E. subst c'.
    destruct (IH _ H) as [t [-> Hk]]. exists t. split; [reflexivity | exact Hk].
Qed.

(** A pattern that only matches where [l] starts finds nothing in a text
    that does not contain [l]. *)
Lemma exec_from_none (r : Regex) (l s pre : string) :
  (forall t x, match_here r t = Some x -> String.prefix l t = true) ->
  contains l s = false -> exec_from r pre s = None.
Proof.
  intros Hr. revert pre. induction s as [ | c s IH]; intros pre Hs;
    rewrite exec_from_eq; rewrite contains_eq in Hs;
    apply orb_false_iff in Hs; destruct Hs as [Hp Hs].
  - destruct (match_here r "") as [x | ] eqn:E; [ | reflexivity].
    rewrite (Hr _ _ E) in Hp. discriminate.
  - destruct (match_here r (String c s)) as [x | ] eqn:E.
    + rewrite (Hr _ _ E) in Hp. discriminate.
    + apply IH. exact Hs.
Qed.

Lemma exec_from_Literal (l s pre : string) :
  contains l s = true -> exists m, exec_from (Literal l) pre s = Some m.
Proof.
  revert pre. induction s as [ | c s IH]; intros pre Hs;
    rewrite exec_from_eq; rewrite contains_eq in Hs;
    apply orb_true_iff in Hs; destruct Hs as [Hp | Hs].
  - destruct (prefix_split _ _ Hp) as [t ->].
    unfold match_here. rewrite run_Literal. eexists. reflexivity.
  - discriminate.
  - destruct (prefix_split _ _ Hp) as [t ->].
    unfold match_here. rewrite run_Literal. eexists. reflexivity.
  - destruct (match_here (Literal l) (String c s)) as [[captures rest] | ].
    + eexists. reflexivity.
    + apply IH. exact Hs.
Qed.

Lemma unknown_regex_prefix (t : string) (x : list string * string) :
  match_here Util.unknown_regex t = Some x -> String.prefix "UNKNOWN" t = true.
Proof.
  unfold match_here, Util.unknown_regex. intros H.
  destruct (run_Literal_inv _ _ _ _ _ H) as [rest [-> _]]. apply prefix_append.
Qed.

Lemma version_regex_prefix (t : string) (x : list string * string) :
  match_here Util.version_regex t = Some x -> String.prefix "mpv " t = true.
Proof.
  unfold match_here, Util.version_regex. cbn [run]. intros H.
  destruct (run_Literal_inv _ _ _ _ _ H) as [rest [-> Hk]].
  unfold one in Hk. destruct rest as [ | c rest]; [discriminate | ].
  destruct (Ascii.eqb " " c) eqn:E; [ | discriminate].
  apply Ascii.eqb_eq in E. subst c.
  change ("mpv" ++ String " " rest) with ("mpv " ++ rest). apply prefix_append.
Qed.

Lemma digit_facts (c : ascii) :
  is_digit c = true ->
  is_white_space c = false /\
  Ascii.eqb c "-" = false /\ Ascii.eqb c "+" = false /\
  Ascii.eqb c "x" = false /\ Ascii.eqb c "X" = false /\
  Ascii.eqb c "." = false /\ Ascii.eqb c " " = false /\
  digit_value 10 c = Some (Z.of_nat (nat_of_ascii c) - 48)%Z.
Proof.
  destruct c as [[ | ] [ | ] [ | ] [ | ] [ | ] [ | ] [ | ] [ | ]]; intros H;
    vm_compute in H; try discriminate H; repeat split; reflexivity.
Qed.

Lemma all_chars_append (p : ascii -> bool) (x y : string) :
  all_chars p (x ++ y) = all_chars p x && all_chars p y.
Proof.
  induction x as [ | c x IH]; simpl; [reflexivity | ].
  rewrite IH. apply andb_assoc.
Qed.

Lemma all_chars_impl (p q : ascii -> bool) (s : string) :
  (forall c, p c = true -> q c = true) ->
  all_chars p s = true -> all_chars q s = true.
Proof.
  intros Hpq. induction s as [ | c s IH]; simpl; [reflexivity | ].
  intros H. apply andb_true_iff in H. destruct H as [Hc Hs].
  rewrite (Hpq c Hc), (IH Hs). reflexivity.
Qed.

Lemma plus_digit_greedy {A : Type} (k : Continuation A) (v rest : string)
      (captures : list string) (a : A) :
  v <> "" ->
  all_chars is_digit v = true ->
  starts_with is_digit rest = false ->
  k rest captures = Some a ->
  run (Plus Digit) k (v ++ rest) captures = Some a.
Proof.
  intros Hne Hv Hrest Hk. destruct v as [ | d v]; [congruence | ].
  simpl in Hv. apply andb_true_iff in Hv. destruct Hv as [Hd Hv].
  unfold Plus. cbn [run]. cbn [String.append]. unfold one at 1. rewrite Hd.
  rewrite star_one; [ | exact Hv | exact Hrest | rewrite length_append; lia].
  apply longest_first_greedy. exact Hk.
Qed.

(** The version pattern on an output that starts with a version. *)
Lemma version_regex_match (a b c rest : string) :
  a <> "" -> b <> "" -> c <> "" ->
  all_chars is_digit a = true ->
  all_chars is_digit b = true ->
  all_chars is_digit c = true ->
  starts_with is_digit rest = false ->
  match_here Util.version_regex ("mpv " ++ a ++ "." ++ b ++ "." ++ c ++ rest) =
    Some (["mpv"], rest).
Proof.
  intros Ha Hb Hc Hda Hdb Hdc Hrest.
  unfold match_here, Util.version_regex.
  change ("mpv " ++ a ++ "." ++ b ++ "." ++ c ++ rest)
    with ("mpv" ++ String " " (a ++ String "." (b ++ String "." (c ++ rest)))).
  cbn [run]. rewrite run_Literal. rewrite consumed_append.
  unfold one at 1. rewrite Ascii.eqb_refl.
  apply plus_digit_greedy; [exact Ha | exact Hda | reflexivity | ].
  unfold one at 1. change (negb (is_line_terminator ".")) with true. cbv iota.
  apply plus_digit_greedy; [exact Hb | exact Hdb | reflexivity | ].
  unfold one at 1. change (negb (is_line_terminator ".")) with true. cbv iota.
  apply plus_digit_greedy; [exact Hc | exact Hdc | exact Hrest | ].
  reflexivity.
Qed.

Lemma split_on_from_none (sep : ascii) (piece s : string) :
  all_chars (fun c => negb (Ascii.eqb c sep)) s = true ->
  split_on_from sep piece s = [piece ++ s].
Proof.
  revert piece. induction s as [ | c s IH]; intros piece H; simpl.
  - rewrite append_empty. reflexivity.
  - simpl in H. apply andb_true_iff in H. destruct H as [Hc Hs].
    apply negb_true_iff in Hc. rewrite Hc. rewrite IH by exact Hs.
    rewrite append_assoc. reflexivity.
Qed.

Lemma split_on_from_sep (sep : ascii) (piece k t : string) :
  all_chars (fun c => negb (Ascii.eqb c sep)) k = true ->
  split_on_from sep piece (k ++ String sep t) = (piece ++ k) :: split_on_from sep "" t.
Proof.
  revert piece. induction k as [ | c k IH]; intros piece H; simpl.
  - rewrite Ascii.eqb_refl. rewrite append_empty. reflexivity.
  - simpl in H. apply andb_true_iff in H. destruct H as [Hc Hk].
    apply negb_true_iff in Hc. rewrite Hc. rewrite IH by exact Hk.
    rewrite append_assoc. reflexivity.
Qed.

Lemma digits_decimal (s : string) (n : Z) :
  all_chars is_digit s = true ->
  digits 10 (Some n) s =
    Some (fold_left (fun n c => (10 * n + (Z.of_nat (nat_of_ascii c) - 48))%Z)
                    (list_ascii_of_string s) n).
Proof.
  revert n. induction s as [ | c s IH]; intros n H; simpl; [reflexivity | ].
  simpl in H. apply andb_true_iff in H. destruct H as [Hc Hs].
  destruct (digit_facts c Hc) as (_ & _ & _ & _ & _ & _ & _ & Hd).
  rewrite Hd. apply IH. exact Hs.
Qed.

Lemma parseInt_digits (s : string) :
  s <> "" -> all_chars is_digit s = true -> parseInt s = Some (decimal s).
Proof.
  intros Hne H. destruct s as [ | c s]; [congruence | ].
  simpl in H. apply andb_true_iff in H. destruct H as [Hc Hs].
  destruct (digit_facts c Hc) as (Hw & Hminus & Hplus & _ & _ & _ & _ & Hd).
  unfold parseInt. cbn [trimStart]. rewrite Hw, Hminus, Hplus.
  assert (Hradix : match s with
                   | String x rest =>
                       if Ascii.eqb c "0" && (Ascii.eqb x "x" || Ascii.eqb x "X")
                       then (16%Z, rest) else (10%Z, String c s)
                   | EmptyString => (10%Z, String c s)
                   end = (10%Z, String c s)).
  { destruct s as [ | x s]; [reflexivity | ].
    simpl in Hs. apply andb_true_iff in Hs. destruct Hs as [Hx _].
    destruct (digit_facts x Hx) as (_ & _ & _ & Hlow & Hup & _).
    rewrite Hlow, Hup, andb_false_r. reflexivity. }
  rewrite Hradix. cbn [digits]. rewrite Hd.
  rewrite digits_decimal by exact Hs. reflexivity.
Qed.

(** The middle number of a version a.b.c. *)
Lemma versionNumber_middle (a b c : string) :
  b <> "" ->
  all_chars is_digit a = true ->
  all_chars is_digit b = true ->
  all_chars is_digit c = true ->
  Util.versionNumber ("mpv " ++ a ++ "." ++ b ++ "." ++ c) = Some (Some (decimal b)).
Proof.
  intros Hb Hda Hdb Hdc.
  assert (Hspace : forall s, all_chars is_digit s = true ->
                             all_chars (fun x => negb (Ascii.eqb x " ")) s = true).
  { intros s. apply all_chars_impl. intros x Hx.
    destruct (digit_facts x Hx) as (_ & _ & _ & _ & _ & _ & Hs & _). rewrite Hs. reflexivity. }
  assert (Hdot : forall s, all_chars is_digit s = true ->
                           all_chars (fun x => negb (Ascii.eqb x ".")) s = true).
  { intros s. apply all_chars_impl. intros x Hx.
    destruct (digit_facts x Hx) as (_ & _ & _ & _ & _ & Hs & _). rewrite Hs. reflexivity. }
  unfold Util.versionNumber, split_on.
  change ("mpv " ++ a ++ "." ++ b ++ "." ++ c)
    with ("mpv" ++ String " " (a ++ String "." (b ++ String "." c))).
  rewrite split_on_from_sep by reflexivity.
  rewrite split_on_from_none.
  2:{ rewrite all_chars_append. rewrite (Hspace a Hda). simpl.
      rewrite all_chars_append. rewrite (Hspace b Hdb). simpl. apply Hspace. exact Hdc. }
  cbn [nth_error]. change ("" ++ ?s) with s.
  rewrite split_on_from_sep by (apply Hdot; exact Hda).
  rewrite split_on_from_sep by (apply Hdot; exact Hdb).
  cbn [nth_error]. rewrite parseInt_digits by assumption. reflexivity.
Qed.

Lemma findIPCCommand_falsy {R : Type} (ipc_command binary : Optional string)
      (execa : string -> R + string) :
  Util.truthy_string ipc_command = false ->
  Util.findIPCCommand ipc_command binary execa = Util.findIPCCommand_version binary execa.
Proof.
  intros H. destruct ipc_command as [ | | command]; try reflexivity.
  simpl in H. apply negb_false_iff in H. unfold Util.findIPCCommand. rewrite H. reflexivity.
Qed.

(** X19.  Without an ipc command of the user, and when the binary prints
    a version a.b.c at the start of its output (and the word UNKNOWN
    nowhere), the command is chosen by the middle number b alone:
    --input-ipc-server when b is at least 17, --input-unix-socket
    otherwise, whatever the first number is.  The binary that is run is the
    one of the options, or mpv. *)
Theorem findIPCCommand_version_number {R : Type} (ipc_command binary : Optional string)
        (execa : string -> R + string) (a b c rest : string) :
  let stdout := "mpv " ++ a ++ "." ++ b ++ "." ++ c ++ rest in
  Util.truthy_string ipc_command = false ->
  execa (Util.binary_or_mpv binary) = inr stdout ->
  contains "UNKNOWN" stdout = false ->
  a <> "" -> b <> "" -> c <> "" ->
  all_chars is_digit a = true ->
  all_chars is_digit b = true ->
  all_chars is_digit c = true ->
  starts_with is_digit rest = false ->
  Util.findIPCCommand ipc_command binary execa =
    ([Util.binary_or_mpv binary],
     Util.Resolved (if (17 <=? decimal b)%Z
                    then "--input-ipc-server" else "--input-unix-socket")).
Proof.
  intros stdout Hcommand Hexeca Hunknown Ha Hb Hc Hda Hdb Hdc Hrest.
  rewrite findIPCCommand_falsy by exact Hcommand.
  unfold Util.findIPCCommand_version. rewrite Hexeca.
  unfold exec. rewrite (exec_from_none _ "UNKNOWN" _ _ unknown_regex_prefix Hunknown).
  rewrite exec_from_eq. subst stdout.
  rewrite (version_regex_match a b c rest) by assumption.
  cbn [matched].
  replace ("mpv " ++ a ++ "." ++ b ++ "." ++ c ++ rest)
    with (("mpv " ++ a ++ "." ++ b ++ "." ++ c) ++ rest)
    by (rewrite !append_assoc; reflexivity).
  rewrite consumed_append.
  rewrite versionNumber_middle by assumption.
  destruct (17 <=? decimal b)%Z; reflexivity.
Qed.

(** X20.  Without an ipc command of the user the binary of the options,
    or mpv, is run once.  What it rejects with is passed on.  An output
    with the word UNKNOWN in it, or without the text mpv followed by a
    space, gives --input-ipc-server. *)
Theorem findIPCCommand_without_version {R : Type} (ipc_command binary : Optional string)
        (execa : string -> R + string) :
  Util.truthy_string ipc_command = false ->
  fst (Util.findIPCCommand ipc_command binary execa) = [Util.binary_or_mpv binary] /\
  (forall reason,
      execa (Util.binary_or_mpv binary) = inl reason ->
      snd (Util.findIPCCommand ipc_command binary execa) = Util.Rethrown reason) /\
  (forall stdout,
      execa (Util.binary_or_mpv binary) = inr stdout ->
      contains "UNKNOWN" stdout = true \/ contains "mpv " stdout = false ->
      snd (Util.findIPCCommand ipc_command binary execa) =
        Util.Resolved "--input-ipc-server").
Proof.
  intros Hcommand. rewrite findIPCCommand_falsy by exact Hcommand.
  unfold Util.findIPCCommand_version. cbn [fst snd].
  split; [reflexivity | ]. split.
  - intros reason Hexeca. rewrite Hexeca. reflexivity.
  - intros stdout Hexeca Hout. rewrite Hexeca. unfold exec.
    destruct (contains "UNKNOWN" stdout) eqn:Hunknown.
    + destruct (exec_from_Literal "UNKNOWN" stdout "" Hunknown) as [m Hm].
      unfold Util.unknown_regex. rewrite Hm. reflexivity.
    + destruct Hout as [Hout | Hout]; [discriminate | ].
      rewrite (exec_from_none _ "UNKNOWN" _ _ unknown_regex_prefix Hunknown).
      rewrite (exec_from_none _ "mpv " _ _ version_regex_prefix Hout).
      reflexivity.
Qed.

(** X21.  An ipc command set by the user decides alone: no binary is run
    and neither the binary nor its output change the result.  One of the
    two known commands is returned as it is; any other text is rejected
    with error 1 of the method start(), the text as its argument and in
    quotes in its message. *)
Theorem findIPCCommand_user_command {R : Type} (command : string)
        (binary : Optional string) (execa : string -> R + string) :
  command <> "" ->
  let result := Util.findIPCCommand (value command) binary execa in
  fst result = [] /\
  (forall binary' (execa' : string -> R + string),
      Util.findIPCCommand (value command) binary' execa' = result) /\
  (snd result = Util.Resolved command <->
   command = "--input-ipc-server" \/ command = "--input-unix-socket") /\
  (command <> "--input-ipc-server" -> command <> "--input-unix-socket" ->
   exists e,
     snd result = Util.RejectedWith e /\
     errcode e = 1 /\ verbose e = Some "Invalid argument" /\
     ErrorHandler.method e = "start()" /\
     arguments e = value [JString command] /\
     errmessage e = value (Util.DQ ++ command ++ Util.DQ ++ " is not a valid ipc command") /\
     ErrorHandler.options e = value Util.ipc_command_options).
Proof.
  intros Hne result. apply String.eqb_neq in Hne.
  assert (Hresult : forall binary' (execa' : string -> R + string),
             Util.findIPCCommand (value command) binary' execa' =
             if negb (includes Util.ipc_commands command)
             then ([], Util.RejectedWith
                         (errorMessage 1 "start()" (value [JString command])
                            (value (Util.DQ ++ command ++ Util.DQ ++
                                    " is not a valid ipc command"))
                            (value Util.ipc_command_options)))
             else ([], Util.Resolved command)).
  { intros binary' execa'. unfold Util.findIPCCommand. rewrite Hne. reflexivity. }
  subst result. rewrite !Hresult.
  unfold includes, Util.ipc_commands. cbn [existsb].
  destruct (String.eqb command "--input-ipc-server") eqn:E1;
    [ | destruct (String.eqb command "--input-unix-socket") eqn:E2 ].
  - apply String.eqb_eq in E1. cbn [orb negb fst snd].
    split; [reflexivity | ]. split; [intros; rewrite Hresult; subst command; reflexivity | ].
    split; [split; [intros _; left; exact E1 | reflexivity] | ].
    intros Hn. contradiction.
  - apply String.eqb_eq in E2. cbn [orb negb fst snd].
    split; [reflexivity | ]. split; [intros; rewrite Hresult; subst command; reflexivity | ].
    split; [split; [intros _; right; exact E2 | reflexivity] | ].
    intros _ Hn. contradiction.
  - apply String.eqb_neq in E1. apply String.eqb_neq in E2. cbn [orb negb fst snd].
    split; [reflexivity | ]. split.
    { intros binary' execa'. rewrite Hresult. unfold includes, Util.ipc_commands.
      cbn [existsb]. apply String.eqb_neq in E1. apply String.eqb_neq in E2.
      rewrite E1, E2. reflexivity. }
    split.
    { split; [discriminate | ]. intros [H | H]; contradiction. }
    intros _ _. eexists. split; [reflexivity | ].
    repeat split.
Qed.

End VersionOutput.

(* ===================================================================== *)
(** ** lib/util.ts: getCaller *)
(* ===================================================================== *)

Section StackFrames.
Import RegExp.
Local Open Scope string_scope.

(** What follows the name of the owner in the pattern of [getCaller]:
    [[^getCaller]\.\w*\s]. *)
Local Abbreviation tail_regex :=
  (Seq (NoneOf "getCaller") (Seq (Chr ".") (Seq (Star WordChar) WhiteSpace))).

Local Abbreviation finish :=
  (fun (rest : string) (captures : list string) => Some (captures, rest)).

Lemma word_char_facts (c : ascii) :
  is_word_char c = true ->
  is_white_space c = false /\ Ascii.eqb c "." = false /\ Ascii.eqb "." c = false.
Proof.
  destruct c as [[ | ] [ | ] [ | ] [ | ] [ | ] [ | ] [ | ] [ | ]]; intros H;
    vm_compute in H; try discriminate H; repeat split; reflexivity.
Qed.

Lemma one_inv {A : Type} (p : ascii -> bool) (k : Continuation A) (s : string)
      (captures : list string) (a : A) :
  one p k s captures = Some a ->
  exists c rest, s = String c rest /\ p c = true /\ k rest captures = Some a.
Proof.
  unfold one. destruct s as [ | c rest]; [discriminate | ].
  destruct (p c) eqn:E; [ | discriminate].
  intros H. exists c, rest. split; [reflexivity | ]. split; [exact E | exact H].
Qed.

Lemma star_one_inv {A : Type} (p : ascii -> bool) (k : Continuation A) (fuel : nat)
      (s : string) (captures : list string) (a : A) :
  star (one p) k fuel s captures = Some a ->
  exists v rest, s = v ++ rest /\ all_chars p v = true /\ k rest captures = Some a.
Proof.
  revert s. induction fuel as [ | fuel IH]; intros s H; cbn [star] in H.
  - exists "", s. split; [reflexivity | ]. split; [reflexivity | exact H].
  - match type of H with
    | match ?m with _ => _ end = _ => destruct m as [a' | ] eqn:E
    end.
    + injection H as ->.
      destruct (one_inv _ _ _ _ _ E) as (c & rest & -> & Hc & Hk).
      destruct (Nat.ltb (String.length rest) (String.length (String c rest)));
        [ | discriminate].
      destruct (IH _ Hk) as (v & rest' & -> & Hv & Hk').
      exists (String c v), rest'. split; [reflexivity | ].
      split; [simpl; rewrite Hc, Hv; reflexivity | exact Hk'].
    + exists "", s. split; [reflexivity | ]. split; [reflexivity | exact H].
Qed.

Lemma run_star_word {A : Type} (k : Continuation A) (v rest : string)
      (captures : list string) :
  all_chars is_word_char v = true ->
  starts_with is_word_char rest = false ->
  run (Star WordChar) k (v ++ rest) captures = longest_first k v rest captures.
Proof.
  intros Hv Hrest. cbn [run].
  apply star_one; [exact Hv | exact Hrest | rewrite length_append; lia].
Qed.

(** After the owner: the character before the dot is none of the letters
    of getCaller. *)
Lemma tail_regex_match (x : ascii) (name rest : string) (captures : list string) :
  occurs x "getCaller" = false ->
  all_chars is_word_char name = true ->
  run tail_regex finish (String x (String "." (name ++ String " " rest))) captures =
    Some (captures, rest).
Proof.
  intros Hx Hname. cbn [run].
  unfold one at 1. rewrite Hx. cbn [negb].
  unfold one at 1. rewrite Ascii.eqb_refl.
  rewrite star_one; [ | exact Hname | reflexivity | rewrite length_append; lia].
  apply longest_first_greedy. reflexivity.
Qed.

(** The dot itself is none of these letters, but then a second dot is
    expected. *)
Lemma tail_regex_dot (name rest : string) (captures : list string) :
  all_chars is_word_char name = true ->
  run tail_regex finish (String "." (name ++ String " " rest)) captures = None.
Proof.
  intros Hname. cbn [run].
  unfold one at 1. change (negb (occurs "." "getCaller")) with true. cbv iota.
  unfold one at 1. destruct name as [ | c name]; cbn [String.append].
  - reflexivity.
  - simpl in Hname. apply andb_true_iff in Hname. destruct Hname as [Hc _].
    destruct (word_char_facts c Hc) as (_ & _ & Hdot). rewrite Hdot. reflexivity.
Qed.

Lemma tail_regex_letter (v : string) (x : ascii) (rest : string)
      (captures : list string) :
  occurs x "getCaller" = true ->
  is_word_char x = true ->
  all_chars is_word_char v = true ->
  run tail_regex finish (v ++ String x rest) captures = None.
Proof.
  intros Hx Hword Hv. cbn [run].
  destruct v as [ | c v]; cbn [String.append]; unfold one at 1.
  - rewrite Hx. reflexivity.
  - destruct (negb (occurs c "getCaller")); [ | reflexivity].
    unfold one at 1. simpl in Hv. apply andb_true_iff in Hv. destruct Hv as [_ Hv].
    destruct v as [ | c' v]; cbn [String.append].
    + destruct (word_char_facts x Hword) as (_ & _ & Hdot). rewrite Hdot. reflexivity.
    + simpl in Hv. apply andb_true_iff in Hv. destruct Hv as [Hc' _].
      destruct (word_char_facts c' Hc') as (_ & _ & Hdot). rewrite Hdot. reflexivity.
Qed.

Lemma caller_regex_steps (owner : string) (x : ascii) (rest : string) :
  all_chars is_word_char owner = true ->
  is_word_char x = true ->
  starts_with is_word_char rest = false ->
  match_here Util.caller_regex ("at" ++ String " " (owner ++ String x rest)) =
    match run tail_regex finish rest [] with
    | Some a => Some a
    | None => longest_first (run tail_regex finish) owner (String x rest) []
    end.
Proof.
  intros Howner Hx Hrest. unfold match_here, Util.caller_regex.
  change (run (Literal "at")
              (run WhiteSpace (run (Star WordChar) (run tail_regex finish)))
              ("at" ++ String " " (owner ++ String x rest)) [] =
          match run tail_regex finish rest [] with
          | Some a => Some a
          | None => longest_first (run tail_regex finish) owner (String x rest) []
          end).
  rewrite run_Literal.
  change (run (Star WordChar) (run tail_regex finish) (owner ++ String x rest) [] =
          match run tail_regex finish rest [] with
          | Some a => Some a
          | None => longest_first (run tail_regex finish) owner (String x rest) []
          end).
  replace (owner ++ String x rest) with ((owner ++ String x "") ++ rest)
    by (rewrite append_assoc; reflexivity).
  rewrite run_star_word.
  - apply longest_first_last.
  - rewrite all_chars_append, Howner. simpl. rewrite Hx. reflexivity.
  - exact Hrest.
Qed.

Lemma exec_from_skip (r : Regex) (pre tail acc : string) :
  unmatched_before r pre tail = true ->
  exec_from r acc (pre ++ tail) = exec_from r (acc ++ pre) tail.
Proof.
  revert acc. induction pre as [ | c pre IH]; intros acc H.
  - simpl. rewrite append_empty. reflexivity.
  - cbn [unmatched_before] in H. rewrite exec_from_eq.
    destruct (match_here r (String c pre ++ tail)); [discriminate | ].
    cbn [String.append]. rewrite IH by exact H.
    rewrite append_assoc. reflexivity.
Qed.

Lemma trimEnd_word (name : string) :
  all_chars is_word_char name = true -> trimEnd (name ++ " ") = name.
Proof.
  induction name as [ | c name IH]; intros H; [reflexivity | ].
  simpl in H. apply andb_true_iff in H. destruct H as [Hc Hname].
  cbn [String.append trimEnd]. rewrite (IH Hname).
  destruct (word_char_facts c Hc) as (Hw & _). rewrite Hw.
  destruct name; reflexivity.
Qed.

Lemma trim_word (name : string) :
  all_chars is_word_char name = true -> trim (name ++ " ") = name.
Proof.
  intros H. unfold trim. destruct name as [ | c name]; [reflexivity | ].
  pose proof H as H'. simpl in H'. apply andb_true_iff in H'. destruct H' as [Hc _].
  destruct (word_char_facts c Hc) as (Hw & _).
  cbn [String.append trimStart]. rewrite Hw.
  apply (trimEnd_word (String c name) H).
Qed.

Lemma match_all_from_none (r : Regex) (fuel : nat) (s : string) :
  exec r s = None -> match_all_from r fuel s = [].
Proof. intros H. destruct fuel; simpl; [ | rewrite H]; reflexivity. Qed.

(** X22.  What the pattern of [getCaller] recognises at a position: the
    word at, a white space, word characters, one character that is none of
    the letters g, e, t, C, a, l, r, a dot, word characters, a white space.
    So a frame whose owner ends in one of these seven letters right before
    the dot is not recognised there. *)
Theorem caller_regex_frame (s rest : string) (captures : list string) :
  match_here Util.caller_regex s = Some (captures, rest) ->
  exists (w x w' : ascii) (owner name : string),
    s = "at" ++ String w (owner ++ String x (String "." (name ++ String w' rest))) /\
    is_white_space w = true /\
    all_chars is_word_char owner = true /\
    occurs x "getCaller" = false /\
    all_chars is_word_char name = true /\
    is_white_space w' = true /\
    captures = [].
Proof.
  unfold match_here, Util.caller_regex. cbn [run]. intros H.
  destruct (run_Literal_inv _ _ _ _ _ H) as (t & -> & H1).
  destruct (one_inv _ _ _ _ _ H1) as (w & t1 & -> & Hw & H2).
  destruct (star_one_inv _ _ _ _ _ _ H2) as (owner & t2 & -> & Howner & H3).
  destruct (one_inv _ _ _ _ _ H3) as (x & t3 & -> & Hx & H4).
  destruct (one_inv _ _ _ _ _ H4) as (d & t4 & -> & Hd & H5).
  destruct (star_one_inv _ _ _ _ _ _ H5) as (name & t5 & -> & Hname & H6).
  destruct (one_inv _ _ _ _ _ H6) as (w' & t6 & -> & Hw' & H7).
  injection H7 as <- <-. apply Ascii.eqb_eq in Hd. subst d.
  apply negb_true_iff in Hx.
  exists w, x, w', owner, name. repeat split; assumption.
Qed.

(** X23.  A stack with one frame at owner.name that the pattern
    recognises, no match starting before it and none after it: getCaller
    gives the name with () added, when the last character of the owner is
    none of the letters of getCaller; a frame whose owner ends in one of
    these letters is not recognised. *)
Theorem getCaller_single_frame (pre owner : string) (x : ascii) (name rest : string) :
  let frame := "at " ++ owner ++ String x "" ++ "." ++ name ++ " " in
  all_chars is_word_char owner = true ->
  is_word_char x = true ->
  all_chars is_word_char name = true ->
  (occurs x "getCaller" = false ->
   unmatched_before Util.caller_regex pre (frame ++ rest) = true ->
   exec Util.caller_regex rest = None ->
   Util.getCaller (pre ++ frame ++ rest) = Some (name ++ "()")) /\
  (occurs x "getCaller" = true ->
   match_here Util.caller_regex (frame ++ rest) = None).
Proof.
  intros frame Howner Hx Hname.
  assert (Hframe : frame ++ rest =
                   "at" ++ String " " (owner ++ String x (String "." (name ++ String " " rest)))).
  { subst frame. rewrite !append_assoc. reflexivity. }
  assert (Hsteps := caller_regex_steps owner x (String "." (name ++ String " " rest))
                                       Howner Hx eq_refl).
  rewrite (tail_regex_dot name rest [] Hname) in Hsteps.
  split.
  - intros Hocc Hpre Hrest.
    assert (Hmatch : match_here Util.caller_regex (frame ++ rest) = Some ([], rest)).
    { rewrite Hframe, Hsteps. apply longest_first_greedy.
      apply tail_regex_match; assumption. }
    assert (Hexec : exec Util.caller_regex (pre ++ frame ++ rest) =
                    Some {| before := pre; matched := frame; groups := []; after := rest |}).
    { unfold exec. rewrite exec_from_skip by exact Hpre.
      rewrite exec_from_eq, Hmatch. rewrite consumed_append. reflexivity. }
    unfold Util.getCaller, match_all. cbn [match_all_from]. rewrite Hexec.
    cbn [matched after]. rewrite (match_all_from_none _ _ _ Hrest).
    match goal with
    | |- context [last ?l] => replace l with [frame] by reflexivity
    end.
    cbn [last].
    assert (Hsplit : split_on "." frame = ["at " ++ owner ++ String x ""; name ++ " "]).
    { unfold split_on. subst frame.
      replace ("at " ++ owner ++ String x "" ++ "." ++ name ++ " ")
        with (("at " ++ owner ++ String x "") ++ String "." (name ++ " "))
        by (rewrite !append_assoc; reflexivity).
      rewrite split_on_from_sep.
      - rewrite split_on_from_none; [reflexivity | ].
        rewrite all_chars_append. rewrite andb_true_r.
        apply (all_chars_impl is_word_char); [ | exact Hname].
        intros c Hc. destruct (word_char_facts c Hc) as (_ & Hdot & _).
        rewrite Hdot. reflexivity.
      - change ("at " ++ owner ++ String x "")
          with (String "a" (String "t" (String " " (owner ++ String x "")))).
        cbn [all_chars]. rewrite all_chars_append.
        destruct (word_char_facts x Hx) as (_ & Hdot & _). simpl. rewrite Hdot.
        rewrite andb_true_r.
        apply (all_chars_impl is_word_char); [ | exact Howner].
        intros c Hc. destruct (word_char_facts c Hc) as (_ & Hdot' & _).
        rewrite Hdot'. reflexivity. }
    rewrite Hsplit. cbn [nth_error]. rewrite trim_word by exact Hname. reflexivity.
  - intros Hocc. rewrite Hframe, Hsteps.
    apply longest_first_none. intros v1 v2 Hv.
    apply tail_regex_letter; [exact Hocc | exact Hx | ].
    rewrite Hv, all_chars_append in Howner.
    apply andb_true_iff in Howner. destruct Howner as [_ Hv2]. exact Hv2.
Qed.

End StackFrames.

(* ===================================================================== *)
(** ** The properties above on concrete inputs *)
(* ===================================================================== *)

Lemma dataHandler_emits_in_order_witness :
  forallb is_notification
          (split_lines (Examples.chunk [Examples.pause_event; Examples.start_file])) = true /\
  emitted (fst (dataHandler (Examples.chunk [Examples.pause_event; Examples.start_file])
                            Examples.connected)) =
    emitted Examples.connected ++
    parsed (split_lines (Examples.chunk [Examples.pause_event; Examples.start_file])).
Proof.
  assert (Hevents : forallb is_notification
                      (split_lines (Examples.chunk [Examples.pause_event;
                                                    Examples.start_file])) = true)
    by (vm_compute; reflexivity).
  split; [exact Hevents | ].
  destruct (dataHandler_emits_in_order _ Examples.connected Hevents) as (_ & Hemitted & _).
  exact Hemitted.
Defined.

Lemma facade_wire_format_witness :
  written (socket (fst (getProperty Examples.volume_env "volume" Examples.connected))) =
    written (socket Examples.connected) ++
    [(JSON_stringify (JObject [("command", JArray [JString "get_property"; JString "volume"]);
                               ("request_id", JString (cuid Examples.volume_env))])
      ++ LF)%string].
Proof.
  destruct (facade_wire_format Examples.volume_env Examples.connected "volume" "loadfile"
              (JNumber 50) 5 [JString "song.mp3"] eq_refl eq_refl)
    as (_ & _ & _ & [_ Hget] & _).
  exact Hget.
Defined.

Lemma load_data_thrown_witness :
  snd (load_data "load()" "song.mp3" (Examples.chunk [Examples.end_file])
                 Samples.started_once) =
    Throw (Thrown (errorMessage 0 "load()" (value [JString "song.mp3"])
                     undefined undefined)) /\
  destroyed (observeSocket
               (fst (load_data "load()" "song.mp3" (Examples.chunk [Examples.end_file])
                               Samples.started_once))) = true.
Proof.
  assert (Hthrown : snd (load_data "load()" "song.mp3" (Examples.chunk [Examples.end_file])
                                   Samples.started_once) =
                    Throw (Thrown (errorMessage 0 "load()" (value [JString "song.mp3"])
                                     undefined undefined)))
    by (vm_compute; reflexivity).
  split; [exact Hthrown | ].
  destruct (load_data_thrown "load()" "song.mp3" _ _ _ Hthrown) as (Hdestroyed & _).
  exact Hdestroyed.
Defined.

Lemma load_data_other_events_witness :
  timeout Samples.started_once < 10 /\
  load_data "load()" "song.mp3" (Examples.chunk [Examples.pause_event])
            Samples.started_once =
    (set_timeout 2 Samples.started_once, Normal).
Proof.
  assert (Hearly : timeout Samples.started_once < 10) by (repeat constructor).
  split; [exact Hearly | ].
  apply (load_data_other_events "load()" "song.mp3"
           (Examples.chunk [Examples.pause_event]) Samples.started_once Hearly).
  vm_compute. reflexivity.
Defined.

Lemma formatOptions_assignment_witness :
  Util.formatOptions ["start=10"%string] = {[ "start"%string := Some "10"%string ]} /\
  Util.formatOptions (["start=5"%string] ++ ["start=10"%string]) !! "start"%string =
    Some (Some "10"%string).
Proof.
  assert (Hkey : "start"%string <> "__proto__"%string) by discriminate.
  assert (Hvalue : "10"%string <> ""%string) by discriminate.
  destruct (formatOptions_assignment "start" "10" "" ["start=5"%string]
              eq_refl Hvalue eq_refl eq_refl) as (_ & Hdefined & _).
  destruct (Hdefined Hkey) as [Hlast Halone].
  split; [exact Halone | exact Hlast].
Defined.

Lemma formatOptions_no_value_witness :
  Util.formatOptions ([] ++ ["pause"%string]) !! "pause"%string = Some None /\
  Util.formatOptions ([] ++ ["pause="%string]) !! "pause="%string = Some None.
Proof.
  assert (Hkey : "pause"%string <> "__proto__"%string) by discriminate.
  destruct (formatOptions_no_value "pause" "" [] eq_refl eq_refl eq_refl)
    as (_ & _ & Hbare & Hsign).
  split; [exact (Hbare Hkey) | exact Hsign].
Defined.

Lemma findIPCCommand_version_number_witness :
  Util.findIPCCommand undefined null (Samples.prints Samples.version_output) =
    (["mpv"%string], Util.Resolved "--input-ipc-server"%string).
Proof.
  assert (Hknown : RegExp.contains "UNKNOWN" Samples.version_output = false)
    by (vm_compute; reflexivity).
  assert (Ha : "0"%string <> ""%string) by discriminate.
  assert (Hb : "32"%string <> ""%string) by discriminate.
  exact (findIPCCommand_version_number undefined null (Samples.prints Samples.version_output)
           "0" "32" "0" " Copyright (C) 2000-2020 mpv/MPlayer/mplayer2 projects"
           eq_refl eq_refl Hknown Ha Hb Ha eq_refl eq_refl eq_refl eq_refl).
Defined.

Lemma findIPCCommand_without_version_witness :
  Util.findIPCCommand undefined (value "/usr/bin/mpv"%string)
                      (Samples.prints Samples.unknown_output) =
    (["/usr/bin/mpv"%string], Util.Resolved "--input-ipc-server"%string).
Proof.
  destruct (findIPCCommand_without_version undefined (value "/usr/bin/mpv"%string)
              (Samples.prints Samples.unknown_output) eq_refl) as (Hrun & _ & Hfallback).
  assert (Hunknown : RegExp.contains "UNKNOWN" Samples.unknown_output = true)
    by (vm_compute; reflexivity).
  specialize (Hfallback Samples.unknown_output eq_refl (or_introl Hunknown)).
  destruct (Util.findIPCCommand undefined (value "/usr/bin/mpv"%string)
              (Samples.prints Samples.unknown_output)) as [run outcome].
  simpl in Hrun, Hfallback. rewrite Hrun, Hfallback. reflexivity.
Defined.

Lemma findIPCCommand_user_command_witness :
  "--input-unix-socket"%string <> ""%string /\
  fst (Util.findIPCCommand (value "--input-unix-socket"%string) null
         (Samples.prints Samples.version_output)) = [].
Proof.
  assert (Hset : "--input-unix-socket"%string <> ""%string) by discriminate.
  split; [exact Hset | ].
  destruct (findIPCCommand_user_command "--input-unix-socket" null
              (Samples.prints Samples.version_output) Hset) as (Hnone & _).
  exact Hnone.
Defined.

Lemma caller_regex_frame_witness :
  RegExp.match_here Util.caller_regex "at mpv.load (file.js)" = Some ([], "(file.js)"%string) /\
  exists (w x w' : ascii) (owner name : string),
    "at mpv.load (file.js)"%string =
      ("at" ++ String w (owner ++ String x (String "." (name ++ String w' "(file.js)"))))%string /\
    RegExp.is_white_space w = true /\
    RegExp.all_chars RegExp.is_word_char owner = true /\
    RegExp.occurs x "getCaller" = false /\
    RegExp.all_chars RegExp.is_word_char name = true /\
    RegExp.is_white_space w' = true /\
    @nil string = [].
Proof.
  assert (Hmatch : RegExp.match_here Util.caller_regex "at mpv.load (file.js)" =
                   Some ([], "(file.js)"%string)) by (vm_compute; reflexivity).
  split; [exact Hmatch | ].
  exact (caller_regex_frame _ _ _ Hmatch).
Defined.

Lemma getCaller_single_frame_witness :
  Util.getCaller (Samples.stack_head ++ "at mpv.load " ++ Samples.stack_tail)%string =
    Some "load()"%string.
Proof.
  destruct (getCaller_single_frame Samples.stack_head "mp" "v" "load" Samples.stack_tail
              eq_refl eq_refl eq_refl) as [Hfound _].
  assert (Hbefore : RegExp.unmatched_before Util.caller_regex Samples.stack_head
                      ("at mpv.load " ++ Samples.stack_tail)%string = true)
    by (vm_compute; reflexivity).
  assert (Hafter : RegExp.exec Util.caller_regex Samples.stack_tail = None)
    by (vm_compute; reflexivity).
  exact (Hfound eq_refl Hbefore Hafter).
Defined.
